(** * Quote engine: estimation and pricing pipeline

    A shallow embedding of the calculators of [quote_engine] and of the
    pricing and display logic built on them, with the properties stated
    for them in the specification.

    Conventions of the embedding.
    - A Python [float] is an exact rational ([Q]); equality of numbers is
      [Qeq] ([==]).  Overflow, NaN and binary representation error are
      outside the model.
    - A Python [int] is a [Z].
    - [round(x, 2)] is [round2]: rounding to the nearest hundredth, ties to
      the even hundredth.
    - A configuration key read with [d.get(k, dflt)] is a field of type
      [option Q]: [None] is an absent key.
    - Text is a [string] of bytes (UTF-8); [lower] folds the letters [A-Z]
      and leaves every other byte, and the classes [\d] and [\s] are the
      ASCII ones: case folding, digits and blanks outside ASCII are
      outside the model.
    - A dict read by key is a [gmap]; a dict whose order is displayed or
      summed in order is a list of pairs; a dict with fixed keys is a
      record. *)

From Stdlib Require Import ZArith QArith Qround Qabs Lia Lqa String Ascii List Bool Sorted.
From stdpp Require Import base option gmap strings.

#[global] Set Warnings "-register-all".

Open Scope Q_scope.

(** ** Numbers *)

Module Num.

(** [max(a, b)] of Python: the first argument unless the second is larger. *)
Definition fmax (a b : Q) : Q := if Qlt_le_dec a b then b else a.

(** [x or d] on numbers: [d] when [x] is zero. *)
Definition or_else (x d : Q) : Q := if Qeq_bool x 0 then d else x.

(** [float(d.get(k, dflt))]. *)
Definition get (o : option Q) (dflt : Q) : Q := default dflt o.

(** [float(d.get(k, dflt) or alt)]. *)
Definition get_or (o : option Q) (dflt alt : Q) : Q := or_else (default dflt o) alt.

(** [int(x)] on a float: truncation toward zero. *)
Definition py_int (x : Q) : Z := if Qlt_le_dec x 0 then Qceiling x else Qfloor x.

(** [x > 0] as a test. *)
Definition is_pos (x : Q) : bool := negb (Qle_bool x 0).

(** Nearest integer, ties to even: [round(x)]. *)
Definition round_half_even (x : Q) : Z :=
  let f := Qfloor x in
  match Qcompare (x - inject_Z f) (1 # 2) with
  | Lt => f
  | Gt => (f + 1)%Z
  | Eq => if Z.even f then f else (f + 1)%Z
  end.

(** [round(x, 2)]. *)
Definition round2 (x : Q) : Q := inject_Z (round_half_even (x * 100)) / 100.

(** A value with at most two decimals. *)
Definition is_cents (x : Q) : Prop := exists c : Z, x == inject_Z c / 100.

(** [sum(...)] over floats. *)
Definition qsum (l : list Q) : Q := fold_left Qplus l 0.

End Num.

(** ** calculators/pricing.py *)

Module Pricing.
Import Num.

(** The keys of [rates] and [policy] that [price] reads. *)
Record Rates := { taxes_gst : option Q }.
Record Policy := { target_margin : option Q; rounding : option Q }.

Record PriceSummary := {
  subtotal_ex_gst : Q;
  price_ex_gst : Q;
  gst : Q;
  total_inc_gst : Q
}.

(** [totals] is the dict of category costs, in insertion order. *)
Definition Totals := list (string * Q).

Definition ex_gst_subtotal (totals : Totals) : Q :=
  qsum (map (fun kv => or_else (snd kv) 0) totals).

(** The integer increment [int(policy.get("rounding", 10))]. *)
Definition rounding_step (policy : Policy) : Z := py_int (get (rounding policy) 10).

(** The margin-adjusted price before rounding (line 11). *)
Definition unrounded_price (totals : Totals) (policy : Policy) : Q :=
  ex_gst_subtotal totals / fmax (1 - get (target_margin policy) 0.30) 0.0001.

(** The value of the variable [price_ex_gst] when the [return] is reached. *)
Definition final_price (totals : Totals) (policy : Policy) : Q :=
  let price_ex_gst := unrounded_price totals policy in
  let rounding := rounding_step policy in
  if (0 <? rounding)%Z
  then inject_Z (Qfloor ((price_ex_gst + inject_Z rounding / 2) / inject_Z rounding)
                 * rounding)
  else price_ex_gst.

Definition price (totals : Totals) (rates : Rates) (policy : Policy) : PriceSummary :=
  let ex_gst_subtotal := ex_gst_subtotal totals in
  let gm_target := get (target_margin policy) 0.30 in
  let gst_rate := get (taxes_gst rates) 0.10 in
  let price_ex_gst := ex_gst_subtotal / fmax (1 - gm_target) 0.0001 in
  let gst := price_ex_gst * gst_rate in
  let total_inc_gst := price_ex_gst + gst in
  let rounding := py_int (get (rounding policy) 10) in
  let '(price_ex_gst, gst, total_inc_gst) :=
    if (0 <? rounding)%Z then
      let price_ex_gst :=
        inject_Z (Qfloor ((price_ex_gst + inject_Z rounding / 2) / inject_Z rounding)
                  * rounding) in
      let gst := price_ex_gst * gst_rate in
      let total_inc_gst := price_ex_gst + gst in
      (price_ex_gst, gst, total_inc_gst)
    else (price_ex_gst, gst, total_inc_gst) in
  {| subtotal_ex_gst := round2 ex_gst_subtotal;
     price_ex_gst := round2 price_ex_gst;
     gst := round2 gst;
     total_inc_gst := round2 total_inc_gst |}.


End Pricing.

(** ** Text: [str.lower], [in], and the counting patterns of [re.search] *)

Module Text.

Definition lower_ascii (c : ascii) : ascii :=
  let n := nat_of_ascii c in
  if ((65 <=? n) && (n <=? 90))%nat then ascii_of_nat (n + 32) else c.

(** [s.lower()]. *)
Fixpoint lower (s : string) : string :=
  match s with
  | EmptyString => EmptyString
  | String c t => String (lower_ascii c) (lower t)
  end.

(** [needle in hay]. *)
Fixpoint contains (needle hay : string) : bool :=
  String.prefix needle hay ||
  match hay with
  | EmptyString => false
  | String _ t => contains needle t
  end.

(** The class [\d]. *)
Definition is_digit (c : ascii) : bool :=
  let n := nat_of_ascii c in ((48 <=? n) && (n <=? 57))%nat.

(** The class [\s]: tab to carriage return, the four separators, space. *)
Definition is_space (c : ascii) : bool :=
  let n := nat_of_ascii c in
  ((9 <=? n) && (n <=? 13) || (28 <=? n) && (n <=? 32))%nat.

(** The longest prefix of [s] in the class [p], and the rest. *)
Fixpoint span (p : ascii -> bool) (s : string) : string * string :=
  match s with
  | EmptyString => (EmptyString, EmptyString)
  | String c t =>
      if p c then let '(a, b) := span p t in (String c a, b)
      else (EmptyString, s)
  end.

(** [re.match(r"(\d+)\s*" + kw, s)], the captured digits.  Both
    quantifiers are greedy; giving back a digit or a blank cannot help
    since [kw] starts with a letter, so the greedy attempt decides. *)
Definition match_count_at (kw s : string) : option string :=
  let '(ds, r) := span is_digit s in
  match ds with
  | EmptyString => None
  | _ =>
      let '(_, r') := span is_space r in
      if String.prefix kw r' then Some ds else None
  end.

(** [re.search(r"(\d+)\s*" + kw, s)]: the leftmost position that matches. *)
Fixpoint search_count (kw s : string) : option string :=
  match match_count_at kw s with
  | Some ds => Some ds
  | None =>
      match s with
      | EmptyString => None
      | String _ t => search_count kw t
      end
  end.

(** [float(ds)] for a string of digits. *)
Definition digits_value (ds : string) : Q :=
  inject_Z (Z.of_N
    ((fix go (acc : N) (s : string) : N :=
        match s with
        | EmptyString => acc
        | String c t => go (acc * 10 + (N_of_ascii c - 48))%N t
        end) 0%N ds)).

End Text.

(** ** logic/hardware_counts.py *)

Module HardwareCounts.
Import Text.

Record HardwareLine := { description : string; qty : Z }.

Record Totals := {
  drawer_kits : Z;
  inner_drawers : Z;
  hinges : Z;
  adj_feet : Z;
  bins : Z;
  liftup : Z
}.

Definition zero : Totals :=
  {| drawer_kits := 0; inner_drawers := 0; hinges := 0;
     adj_feet := 0; bins := 0; liftup := 0 |}.

(** One iteration of the loop: the chain of [if ...: ...; continue]. *)
Definition classify_line (totals : Totals) (h : HardwareLine) : Totals :=
  let desc := lower (description h) in
  let qty := qty h in
  let 'Build_Totals dk inn hg af bn lu := totals in
  if contains "adj leg" desc || contains "adj feet" desc
     || contains "adjustable leg" desc || contains "adjustable feet" desc
  then Build_Totals dk inn hg (af + qty) bn lu
  else if contains "drawer support" desc
  then totals
  else if contains "drawer kit" desc
          || (contains "inner drawer" desc && contains "kit" desc)
  then if contains "inner" desc
       then Build_Totals dk (inn + qty) hg af bn lu
       else Build_Totals (dk + qty) inn hg af bn lu
  else if contains "hinge" desc
  then Build_Totals dk inn (hg + qty) af bn lu
  else if contains "bin" desc
  then Build_Totals dk inn hg af (bn + qty) lu
  else if contains "aventos" desc || contains "liftup" desc
          || contains "lift-up" desc || contains "lift mechanism" desc
  then Build_Totals dk inn hg af bn (lu + qty)
  else totals.

Definition classify_hardware (hardware_list : list HardwareLine) : Totals :=
  fold_left classify_line hardware_list zero.

(** *** The classifier in the words of the specification *)

Inductive Bucket := DrawerKits | InnerDrawers | Hinges | AdjFeet | Bins | Liftup.

Definition bucket_total (b : Bucket) (t : Totals) : Z :=
  match b with
  | DrawerKits => drawer_kits t
  | InnerDrawers => inner_drawers t
  | Hinges => hinges t
  | AdjFeet => adj_feet t
  | Bins => bins t
  | Liftup => liftup t
  end.

(** A rule: a test on the lower-cased description and the bucket it
    selects ([None]: the line is ignored). *)
Definition Rule : Type := (string -> bool) * (string -> option Bucket).

(** The ordered rules 1 to 6 of the specification. *)
Definition spec_rules : list Rule :=
  [ (fun d => contains "adj leg" d || contains "adj feet" d
              || contains "adjustable leg" d || contains "adjustable feet" d,
     fun _ => Some AdjFeet);
    (fun d => contains "drawer support" d, fun _ => None);
    (fun d => contains "drawer kit" d || (contains "inner drawer" d && contains "kit" d),
     fun d => if contains "inner" d then Some InnerDrawers else Some DrawerKits);
    (fun d => contains "hinge" d, fun _ => Some Hinges);
    (fun d => contains "bin" d, fun _ => Some Bins);
    (fun d => contains "aventos" d || contains "liftup" d
              || contains "lift-up" d || contains "lift mechanism" d,
     fun _ => Some Liftup) ].

(** First match wins; no match: the line is dropped. *)
Fixpoint first_match (rules : list Rule) (d : string) : option Bucket :=
  match rules with
  | [] => None
  | (test, tag) :: rest => if test d then tag d else first_match rest d
  end.

Definition spec_bucket (h : HardwareLine) : option Bucket :=
  first_match spec_rules (lower (description h)).

Definition bucket_eqb (a b : Bucket) : bool :=
  match a, b with
  | DrawerKits, DrawerKits | InnerDrawers, InnerDrawers | Hinges, Hinges
  | AdjFeet, AdjFeet | Bins, Bins | Liftup, Liftup => true
  | _, _ => false
  end.

(** What a line adds to bucket [b]: its quantity if [b] is its bucket. *)
Definition contribution (b : Bucket) (h : HardwareLine) : Z :=
  match spec_bucket h with
  | Some b' => if bucket_eqb b' b then qty h else 0
  | None => 0
  end.

Definition spec_total (b : Bucket) (l : list HardwareLine) : Z :=
  fold_right (fun h acc => (contribution b h + acc)%Z) 0%Z l.

End HardwareCounts.

(** ** Products and the per-product heuristics shared by assembly and install *)

Module Products.
Import Num Text.

Record Product := {
  item : string;
  room : string;
  description : string;
  qty : Z;
  width_mm : Q;
  height_mm : Q;
  depth_mm : Q;
  area_m2 : Q
}.

(** [products_data]: the product list with the hardware tally attached. *)
Record ProductsData := {
  products : list Product;
  hardware : list HardwareCounts.HardwareLine
}.

(** The dict built by [infer_counts]; [hinges] is the key the caller adds. *)
Record Counts := {
  drawers : Q;
  inner_drawers : Q;
  doors : Q;
  feet : Q;
  bins : Q;
  hinges : Q
}.

(** [predicted_totals] and [scales]: one number for each scaled key. *)
Record PerKey := {
  k_drawers : Q;
  k_inner_drawers : Q;
  k_hinges : Q;
  k_feet : Q;
  k_bins : Q
}.

(** A per-product override entry, [{}] when absent. *)
Record ProductOverride := { exclude : bool; complexity : option Q }.

Definition no_override : ProductOverride := {| exclude := false; complexity := None |}.

(** [pov.get(item_id, {}) if item_id else {}]. *)
Definition override_of (pov : gmap string ProductOverride) (item_id : string) : ProductOverride :=
  if String.eqb item_id "" then no_override else default no_override (pov !! item_id).

(** [infer_counts(desc, depth_mm)]. *)
Definition infer_counts (desc : string) (depth_mm : Q) : Counts :=
  let d := lower desc in
  let drawers :=
    match search_count "drawer" d with
    | Some g => digits_value g
    | None => 0
    end in
  let inner_drawers :=
    if contains "inner drawer" d then
      match search_count "inner drawer" d with
      | Some g => digits_value g
      | None => 1
      end
    else 0 in
  let doors :=
    if contains "door" d then
      match search_count "door" d with
      | Some g => digits_value g
      | None => 1
      end
    else 0 in
  let bins := if contains "bin" d then 1 else 0 in
  let feet :=
    if negb (Qeq_bool depth_mm 0) && Qle_bool 500 depth_mm then 6 else 0 in
  {| drawers := drawers; inner_drawers := inner_drawers; doors := doors;
     feet := feet; bins := bins; hinges := 0 |}.

(** The first loop over the products: infer, derive the hinges from the
    doors, store under the item id, and accumulate the predicted totals. *)
Definition counts_of (hinges_per_door : Q) (p : Product) : Counts :=
  let c := infer_counts (description p) (or_else (depth_mm p) 0) in
  {| drawers := drawers c; inner_drawers := inner_drawers c; doors := doors c;
     feet := feet c; bins := bins c; hinges := doors c * hinges_per_door |}.

Definition zero_keys : PerKey :=
  {| k_drawers := 0; k_inner_drawers := 0; k_hinges := 0; k_feet := 0; k_bins := 0 |}.

Definition add_counts (t : PerKey) (c : Counts) : PerKey :=
  {| k_drawers := k_drawers t + drawers c;
     k_inner_drawers := k_inner_drawers t + inner_drawers c;
     k_hinges := k_hinges t + hinges c;
     k_feet := k_feet t + feet c;
     k_bins := k_bins t + bins c |}.

Definition infer_all (hinges_per_door : Q) (ps : list Product)
  : PerKey * gmap string Counts :=
  fold_left
    (fun '(predicted_totals, perprod_counts) p =>
       let c := counts_of hinges_per_door p in
       (add_counts predicted_totals c, <[item p := c]> perprod_counts))
    ps (zero_keys, ∅).

(** One pass of [for k, hwk in map_keys.items()]. *)
Definition scale_for (actual predicted : Q) : Q :=
  if is_pos actual && is_pos predicted then actual / predicted else 1.

(** [scales], from the classified totals and the predicted totals.  The
    classifier always returns its six keys, so [if hw_totals:] holds. *)
Definition compute_scales (hw_totals : HardwareCounts.Totals) (predicted_totals : PerKey)
  : PerKey :=
  let actual (n : Z) := or_else (inject_Z n) 0 in
  let predicted (x : Q) := or_else x 0 in
  {| k_drawers :=
       scale_for (actual (HardwareCounts.drawer_kits hw_totals))
                 (predicted (k_drawers predicted_totals));
     k_inner_drawers :=
       scale_for (actual (HardwareCounts.inner_drawers hw_totals))
                 (predicted (k_inner_drawers predicted_totals));
     k_hinges :=
       scale_for (actual (HardwareCounts.hinges hw_totals))
                 (predicted (k_hinges predicted_totals));
     k_feet :=
       scale_for (actual (HardwareCounts.adj_feet hw_totals))
                 (predicted (k_feet predicted_totals));
     k_bins :=
       scale_for (actual (HardwareCounts.bins hw_totals))
                 (predicted (k_bins predicted_totals)) |}.

(** The five pairs of the reconciliation, each with its factor:
    (classified total, predicted total, scale factor). *)
Definition factor_table (hw_totals : HardwareCounts.Totals) (predicted_totals scales : PerKey)
  : list (Q * Q * Q) :=
  [ (inject_Z (HardwareCounts.drawer_kits hw_totals), k_drawers predicted_totals,
     k_drawers scales);
    (inject_Z (HardwareCounts.inner_drawers hw_totals), k_inner_drawers predicted_totals,
     k_inner_drawers scales);
    (inject_Z (HardwareCounts.hinges hw_totals), k_hinges predicted_totals,
     k_hinges scales);
    (inject_Z (HardwareCounts.adj_feet hw_totals), k_feet predicted_totals,
     k_feet scales);
    (inject_Z (HardwareCounts.bins hw_totals), k_bins predicted_totals,
     k_bins scales) ].

(** The factor in the words of the specification: classified / predicted
    when both are strictly positive, 1 otherwise. *)
Definition spec_factor (classified predicted factor : Q) : Prop :=
  (0 < classified /\ 0 < predicted -> factor == classified / predicted)
  /\ (~ (0 < classified /\ 0 < predicted) -> factor == 1).

(** What the specification asks of an entry of the table: the factor is
    the guarded quotient, it is strictly positive, and it is 1 when nothing
    was predicted. *)
Definition guarded (t : Q * Q * Q) : Prop :=
  let '(classified, predicted, factor) := t in
  spec_factor classified predicted factor /\ 0 < factor
  /\ (predicted == 0 -> factor == 1).

(** [c.get(k, 0.0) * scales[k] * add_k], summed over the five keys;
    [c] is [{}] when the item id has no entry. *)
Definition add_minutes (c : option Counts) (scales adders : PerKey) : Q :=
  let g (f : Counts -> Q) := match c with Some c => f c | None => 0 end in
  g drawers * k_drawers scales * k_drawers adders
  + g inner_drawers * k_inner_drawers scales * k_inner_drawers adders
  + g hinges * k_hinges scales * k_hinges adders
  + g feet * k_feet scales * k_feet adders
  + g bins * k_bins scales * k_bins adders.

(** [_complexity_multiplier]: the product of the multipliers of every key
    found in the description. *)
Definition complexity_multiplier (desc : string) (cmap : list (string * Q)) : Q :=
  let dlow := lower desc in
  fold_left (fun comp '(key, mult) => if contains (lower key) dlow then comp * mult else comp)
            cmap 1.

(** A row of the per-product breakdown. *)
Record ProductHours := { ph_product : Product; ph_qty : Z; ph_hours : Q }.

End Products.

(** ** calculators/assembly.py *)

Module Assembly.
Import Num Text Products.

Record Rates := {
  labor_shop : option Q;
  base_minutes_per_m2 : option Q;
  min_minutes_per_product : option Q;
  setout_minutes_per_product : option Q
}.

Record Rules := {
  adder_drawer : option Q;
  adder_inner_drawer : option Q;
  adder_hinge : option Q;
  adder_foot : option Q;
  adder_bin : option Q;
  hinges_per_door : option Q;
  complexity_map : list (string * Q)
}.

Record Result := { hours : Q; cost : Q; per_product : list ProductHours }.

Definition adders (rules : Rules) : PerKey :=
  {| k_drawers := get (adder_drawer rules) 20;
     k_inner_drawers := get (adder_inner_drawer rules) 20;
     k_hinges := get (adder_hinge rules) 1;
     k_feet := get (adder_foot rules) 1;
     k_bins := get (adder_bin rules) 25 |}.

(** The scale factors [estimate] works with. *)
Definition scales (products_data : ProductsData) (rules : Rules) : PerKey :=
  let hinges_per_door := inject_Z (py_int (get (hinges_per_door rules) 2)) in
  let hw_totals := HardwareCounts.classify_hardware (hardware products_data) in
  let '(predicted_totals, _) := infer_all hinges_per_door (products products_data) in
  compute_scales hw_totals predicted_totals.

Definition product_hours (rates : Rates) (rules : Rules)
    (pov : gmap string ProductOverride)
    (perprod_counts : gmap string Counts) (scales : PerKey) (p : Product) : Z * Q :=
  let ptype := description p in
  let qty := Z.max 1 (qty p) in
  let comp := complexity_multiplier ptype (complexity_map rules) in
  let ov := override_of pov (item p) in
  let hours :=
    if exclude ov then 0
    else
      let extra_comp := get_or (complexity ov) 1 1 in
      let minutes :=
        if contains "adjustable kick" (lower ptype) then 20 * comp * extra_comp
        else
          let area_min :=
            fmax (get (min_minutes_per_product rates) 10)
                 (area_m2 p * get (base_minutes_per_m2 rates) 44.44) in
          let add_min := add_minutes (perprod_counts !! item p) scales (adders rules) in
          (area_min + add_min + get (setout_minutes_per_product rates) 5)
          * comp * extra_comp in
      (minutes / 60) * inject_Z qty in
  (qty, hours).

Definition estimate (products_data : ProductsData) (rules : Rules) (rates : Rates)
    (pov : gmap string ProductOverride) : Result :=
  let shop_rate := get (labor_shop rates) 150 in
  let hinges_per_door := inject_Z (py_int (get (hinges_per_door rules) 2)) in
  let hw_totals := HardwareCounts.classify_hardware (hardware products_data) in
  let '(predicted_totals, perprod_counts) :=
    infer_all hinges_per_door (products products_data) in
  let scales := compute_scales hw_totals predicted_totals in
  let '(total_hours, per_product) :=
    fold_left
      (fun '(total_hours, per_product) p =>
         let '(qty, hours) := product_hours rates rules pov perprod_counts scales p in
         (total_hours + hours,
          per_product ++ [ {| ph_product := p; ph_qty := qty; ph_hours := round2 hours |} ]))
      (products products_data) (0, []) in
  {| hours := round2 total_hours;
     cost := round2 (total_hours * shop_rate);
     per_product := per_product |}.

End Assembly.

(** ** calculators/install.py *)

Module Install.
Import Num Text Products.

Record Rates := {
  defaults_install_hours : option Q;
  two_person_fraction : option Q;
  one_person_fraction : option Q;
  two_person_rate : option Q;
  one_person_rate : option Q;
  labor_installer_billed : option Q;
  base_minutes_per_m2 : option Q;
  min_minutes_per_product : option Q
}.

Record Rules := {
  adder_drawer : option Q;
  adder_inner_drawer : option Q;
  adder_hinge : option Q;
  adder_foot : option Q;
  adder_bin : option Q;
  hinges_per_door : option Q;
  complexity_map : list (string * Q)
}.

Record Result := {
  hours : Q;
  cost : Q;
  per_product : list ProductHours;
  person_hours : Q;
  r_two_person_fraction : Q;
  r_one_person_fraction : Q;
  r_two_person_rate : Q;
  r_one_person_rate : Q;
  blended_rate : Q
}.

(** [round(x, 4)]. *)
Definition round4 (x : Q) : Q := inject_Z (round_half_even (x * 10000)) / 10000.

Definition adders (rules : Rules) : PerKey :=
  {| k_drawers := get (adder_drawer rules) 5;
     k_inner_drawers := get (adder_inner_drawer rules) 5;
     k_hinges := get (adder_hinge rules) 2;
     k_feet := get (adder_foot rules) 1;
     k_bins := get (adder_bin rules) 10 |}.

(** The crew fractions after normalisation (lines 46 to 55). *)
Definition crew_fractions (rates : Rates) : Q * Q :=
  let two_person_frac := get_or (two_person_fraction rates) 0.8 0 in
  let one_person_frac := get_or (one_person_fraction rates) 0.2 0 in
  let total_frac := fmax (two_person_frac + one_person_frac) 0 in
  if Qle_bool total_frac 0 then (1, 0)
  else (two_person_frac / total_frac, one_person_frac / total_frac).

Definition crew_rates (rates : Rates) : Q * Q :=
  (get_or (two_person_rate rates) 190 190,
   get_or (one_person_rate rates) (get (labor_installer_billed rates) 95) 95).

(** The value of [blended_rate] on either path. *)
Definition blended (rates : Rates) : Q :=
  let '(two_person_frac, one_person_frac) := crew_fractions rates in
  let '(two_person_rate, one_person_rate) := crew_rates rates in
  two_person_frac * two_person_rate + one_person_frac * one_person_rate.

(** The scale factors of the per-product path.  ([factor], from
    [_factor_for_type], is computed in the loop and never used.) *)
Definition scales (products_data : ProductsData) (rules : Rules) : PerKey :=
  let hw_totals := HardwareCounts.classify_hardware (hardware products_data) in
  let '(predicted_totals, _) :=
    infer_all (get (hinges_per_door rules) 2) (products products_data) in
  compute_scales hw_totals predicted_totals.

Definition product_hours (rates : Rates) (rules : Rules)
    (pov : gmap string ProductOverride)
    (perprod_counts : gmap string Counts) (scales : PerKey) (p : Product) : Z * Q :=
  let ptype := description p in
  let qty := Z.max 1 (qty p) in
  let comp := complexity_multiplier ptype (complexity_map rules) in
  let ov := override_of pov (item p) in
  let hours :=
    if exclude ov then 0
    else
      let desc_l := lower (description p) in
      let width_m := or_else (width_mm p) 0 / 1000 in
      let minutes :=
        if contains "floating shelf" desc_l then 30 * width_m * comp
        else if contains "adjustable kick" desc_l then 15 * width_m * comp
        else
          let area_min :=
            fmax (get (min_minutes_per_product rates) 5)
                 (area_m2 p * get (base_minutes_per_m2 rates) 30) in
          let add_min := add_minutes (perprod_counts !! item p) scales (adders rules) in
          (area_min + add_min) * comp in
      (minutes / 60) * inject_Z qty in
  (qty, hours).

Definition estimate (products_data : ProductsData) (rates : Rates) (rules : Rules)
    (pov : gmap string ProductOverride) : Result :=
  let override := get_or (defaults_install_hours rates) 0 0 in
  let '(two_person_frac, one_person_frac) := crew_fractions rates in
  let '(two_person_rate, one_person_rate) := crew_rates rates in
  if is_pos override then
    let site_hours := override in
    let blended_rate := two_person_frac * two_person_rate + one_person_frac * one_person_rate in
    {| hours := round2 site_hours;
       cost := round2 (site_hours * blended_rate);
       per_product := [];
       person_hours := round2 (site_hours * (two_person_frac * 2 + one_person_frac * 1));
       r_two_person_fraction := round4 two_person_frac;
       r_one_person_fraction := round4 one_person_frac;
       r_two_person_rate := round2 two_person_rate;
       r_one_person_rate := round2 one_person_rate;
       blended_rate := round2 blended_rate |}
  else
    let hw_totals := HardwareCounts.classify_hardware (hardware products_data) in
    let '(predicted_totals, perprod_counts) :=
      infer_all (get (hinges_per_door rules) 2) (products products_data) in
    let scales := compute_scales hw_totals predicted_totals in
    let '(total_person_hours, per_product) :=
      fold_left
        (fun '(total, rows) p =>
           let '(qty, hours) := product_hours rates rules pov perprod_counts scales p in
           (total + hours,
            rows ++ [ {| ph_product := p; ph_qty := qty; ph_hours := round2 hours |} ]))
        (products products_data) (0, []) in
    let denom := two_person_frac * 2 + one_person_frac * 1 in
    let site_hours := total_person_hours / fmax denom 0.0001 in
    let blended_rate := two_person_frac * two_person_rate + one_person_frac * one_person_rate in
    let cost := site_hours * blended_rate in
    {| hours := round2 site_hours;
       cost := round2 cost;
       per_product := per_product;
       person_hours := round2 total_person_hours;
       r_two_person_fraction := round4 two_person_frac;
       r_one_person_fraction := round4 one_person_frac;
       r_two_person_rate := round2 two_person_rate;
       r_one_person_rate := round2 one_person_rate;
       blended_rate := round2 blended_rate |}.


Definition no_rules : Rules :=
  {| adder_drawer := None; adder_inner_drawer := None; adder_hinge := None;
     adder_foot := None; adder_bin := None; hinges_per_door := None;
     complexity_map := [] |}.

End Install.

(** ** output/exporters/html.py: the display amounts of [render_client_quote] *)

Module Html.
Import Num.

(** The keys of [policy] that the display amounts read. *)
Record Policy := {
  target_margin : option Q;
  rounding : option Q;
  allowances_flat_aud_ex_gst : option Q;
  warranty_percent : option Q;
  contingency_percent : option Q;
  merchant_percent : option Q
}.

(** What the template receives about the price breakdown. *)
Record Display := {
  category_display : list (string * Q);
  allowances_display : Q;
  surcharge_display : Q;
  subtotal_display : Q
}.

Definition cat_order : list string :=
  ["materials"; "edgeband"; "hardware"; "cnc"; "panel_saw"; "assembly"; "install";
   "overhead"]%string.

(** [category_totals.get(key, 0) or 0]. *)
Definition total_of (category_totals : gmap string Q) (key : string) : Q :=
  or_else (default 0 (category_totals !! key)) 0.

(** [d.get(key, dflt)] and [d[key] = v] on a dict kept in insertion order. *)
Fixpoint dict_get (d : list (string * Q)) (key : string) (dflt : Q) : Q :=
  match d with
  | [] => dflt
  | (k, v) :: rest => if String.eqb k key then v else dict_get rest key dflt
  end.

Fixpoint dict_set (d : list (string * Q)) (key : string) (v : Q) : list (string * Q) :=
  match d with
  | [] => [(key, v)]
  | (k, w) :: rest =>
      if String.eqb k key then (k, v) :: rest else (k, w) :: dict_set rest key v
  end.

(** [sum(d.values())]. *)
Definition values_sum (d : list (string * Q)) : Q := qsum (map snd d).

(** [factor]: the margin spread over the categories (lines 135 to 137). *)
Definition margin_factor (policy : Policy) : Q :=
  let m_target := get_or (target_margin policy) 0.30 0.30 in
  1 / fmax (1 - m_target) 0.0001.

(** [allowances_flat]: the policy amount, or the total passed in
    (lines 117 and 140 to 141). *)
Definition allowances_flat (policy : Policy) (category_totals : gmap string Q) : Q :=
  let allowances_flat := get_or (allowances_flat_aud_ex_gst policy) 0 0 in
  match category_totals !! "allowances"%string with
  | Some a => or_else a 0
  | None => allowances_flat
  end.

(** [surcharge_total]: the percentage of the core subtotal, or the total
    passed in (lines 118 to 132 and 142 to 143). *)
Definition surcharge_total (policy : Policy) (category_totals : gmap string Q) : Q :=
  let allowances_flat := get_or (allowances_flat_aud_ex_gst policy) 0 0 in
  let surcharge_pct :=
    get_or (warranty_percent policy) 0 0 + get_or (contingency_percent policy) 0 0
    + get_or (merchant_percent policy) 0 0 in
  let subtotal_for_surcharges :=
    total_of category_totals "materials" + total_of category_totals "edgeband"
    + total_of category_totals "hardware" + total_of category_totals "cnc"
    + total_of category_totals "panel_saw" + total_of category_totals "assembly"
    + total_of category_totals "install" + total_of category_totals "overhead"
    + allowances_flat in
  let surcharge_total :=
    if Qeq_bool surcharge_pct 0 then 0
    else subtotal_for_surcharges * (surcharge_pct / 100) in
  match category_totals !! "surcharges"%string with
  | Some s => or_else s 0
  | None => surcharge_total
  end.

(** [category_display] after the loop over [cat_order] (lines 146 to 159):
    every category scaled on its own. *)
Definition scaled_amounts (policy : Policy) (category_totals : gmap string Q)
  : list (string * Q) :=
  map (fun key => (key, round2 (total_of category_totals key * margin_factor policy)))
      cat_order.

(** Lines 163 to 170: the delta to the final price goes to [install]. *)
Definition reconcile (category_display : list (string * Q))
    (allowances_display surcharge_display price_final : Q) : Display :=
  let subtotal_display := round2 (values_sum category_display + allowances_display) in
  let price_sum_no_round := subtotal_display + surcharge_display in
  let delta := round2 (price_final - price_sum_no_round) in
  let category_display :=
    dict_set category_display "install"
             (round2 (dict_get category_display "install" 0 + delta)) in
  let subtotal_display := round2 (values_sum category_display + allowances_display) in
  {| category_display := category_display;
     allowances_display := allowances_display;
     surcharge_display := surcharge_display;
     subtotal_display := subtotal_display |}.

(** [allowances_display] and [surcharge_display] (lines 160 and 161). *)
Definition allowances_amount (policy : Policy) (category_totals : gmap string Q) : Q :=
  round2 (or_else (allowances_flat policy category_totals) 0 * margin_factor policy).

Definition surcharge_amount (policy : Policy) (category_totals : gmap string Q) : Q :=
  round2 (or_else (surcharge_total policy category_totals) 0 * margin_factor policy).

(** Lines 117 to 170; [price_final] is [price.get("price_ex_gst", 0.0)]. *)
Definition display_amounts (policy : Policy) (category_totals : gmap string Q)
    (price_final : Q) : Display :=
  reconcile (scaled_amounts policy category_totals)
            (allowances_amount policy category_totals)
            (surcharge_amount policy category_totals)
            (or_else price_final 0).

(** Every amount of a dict is in whole cents. *)
Definition all_cents (d : list (string * Q)) : Prop :=
  Forall (fun kv => is_cents (snd kv)) d.

(** The delta that [reconcile] assigns. *)
Definition rounding_delta (policy : Policy) (category_totals : gmap string Q)
    (price_final : Q) : Q :=
  let d := display_amounts policy category_totals price_final in
  round2 (or_else price_final 0
          - (round2 (values_sum (scaled_amounts policy category_totals) + allowances_display d)
             + surcharge_display d)).

(** The displayed breakdown: every category line, the allowances line and
    the surcharges line. *)
Definition displayed_sum (d : Display) : Q :=
  values_sum (category_display d) + allowances_display d + surcharge_display d.

End Html.

(** ** web/app.py: loading and delivery in [_compute_project] *)

Module Delivery.
Import Num Products.

Record Config := {
  truck_capacity_cbm : option Q
}.

(** [_prod_volume_m3]. *)
Definition prod_volume_m3 (p : Product) : Q :=
  let w := or_else (width_mm p) 0 / 1000 in
  let h := or_else (height_mm p) 0 / 1000 in
  let d := or_else (depth_mm p) 0 / 1000 in
  let v := fmax w 0 * fmax h 0 * fmax d 0 in
  let q := if (qty p =? 0)%Z then 1%Z else qty p in
  v * inject_Z q.

(** The loop that accumulates [total_cbm], skipping excluded products. *)
Definition total_cbm (ps : list Product) (pov : gmap string ProductOverride) : Q :=
  fold_left
    (fun total p => if exclude (override_of pov (item p)) then total
                    else total + prod_volume_m3 p)
    ps 0.

Definition capacity (cfg : Config) : Q := get_or (truck_capacity_cbm cfg) 15 15.

(** [x % y == 0] on floats: [y] divides [x]. *)
Definition divides (y x : Q) : bool := Qeq_bool (x - y * inject_Z (Qfloor (x / y))) 0.

(** Line 401. *)
Definition trips_of (total_cbm cap : Q) : Z :=
  if is_pos cap
  then py_int (total_cbm / cap + (if divides cap total_cbm then 0 else 1))
  else 0%Z.

Definition trips (cfg : Config) (ps : list Product) (pov : gmap string ProductOverride) : Z :=
  trips_of (total_cbm ps pov) (capacity cfg).





End Delivery.

(** ** web/app.py: [_deep_update] *)

Module Override.

Inductive scalar :=
  | SNone
  | SBool (b : bool)
  | SInt (n : Z)
  | SFloat (x : Q)
  | SStr (s : string).

(** A parsed YAML or JSON document. *)
Inductive value :=
  | VScalar (s : scalar)
  | VList (l : list value)
  | VDict (m : gmap string value).

(** What [dst[k]] holds once the loop body has run for the item [(k, v)],
    [old] being [dst.get(k)]: the old dict updated in place when both are
    dicts, and [v] otherwise. *)
Fixpoint updated (v : value) (old : option value) {struct v} : value :=
  match v, old with
  | VDict src, Some (VDict dst) =>
      VDict (map_fold (fun k v' acc => <[k := updated v' (acc !! k)]> acc) dst src)
  | _, _ => v
  end.

(** [_deep_update(dst, src)]: the value of [dst] when the call returns.
    The assignment [dst[k] = v] stores the object [v] itself, so a second
    merge of the same document meets [dst[k]] and [v] as one object; on
    values that is [updated v (Some v)]. *)
Definition deep_update (dst src : gmap string value) : gmap string value :=
  map_fold (fun k v acc => <[k := updated v (acc !! k)]> acc) dst src.

(** A bound on the nesting depth of dicts, for induction. *)
Fixpoint depth (v : value) : nat :=
  match v with
  | VDict m => S (map_fold (fun _ v' n => Nat.max (depth v') n) 0%nat m)
  | _ => 0%nat
  end.

End Override.

(** ** calculators/edgeband.py: [time_from_parts] *)

Module Edgeband.
Import Num Text.

Record Part := { qty : Z; eb_flags : gmap string string }.

Definition flag_keys : list string := ["EBW1"; "EBL1"; "EBW2"; "EBL2"]%string.

(** [str(val).strip() != ""]. *)
Fixpoint non_blank (s : string) : bool :=
  match s with
  | EmptyString => false
  | String c t => negb (is_space c) || non_blank t
  end.

(** [val is not None and str(val).strip() != ""]. *)
Definition flag_set (flags : gmap string string) (key : string) : bool :=
  match flags !! key with
  | Some val => non_blank val
  | None => false
  end.

(** The inner loop over the four keys, for one part. *)
Definition count_part (count_edges : Z) (p : Part) : Z :=
  fold_left
    (fun count key =>
       if flag_set (eb_flags p) key
       then (count + (if (0 <? qty p)%Z then qty p else 1))%Z
       else count)
    flag_keys count_edges.

Definition count_edges (parts : list Part) : Z := fold_left count_part parts 0%Z.

Definition minutes_per_edge (cfg : option Q) : Q := get_or cfg 1 1.

Definition time_from_parts (parts : list Part) (cfg_minutes_per_edge : option Q) : Q :=
  let minutes := inject_Z (count_edges parts) * minutes_per_edge cfg_minutes_per_edge in
  round2 (minutes / 60).

(** The number of non-empty edge flags of a part. *)
Definition edged_sides (p : Part) : Z :=
  Z.of_nat (length (List.filter (flag_set (eb_flags p)) flag_keys)).

(** The quantity a part counts with. *)
Definition counted_qty (p : Part) : Z := if (0 <? qty p)%Z then qty p else 1%Z.


(** The edges counted over a parts list: every non-empty flag of a part
    counts with the part's counted quantity. *)
Definition counted_edges (parts : list Part) : Z :=
  fold_right (fun p acc => (counted_qty p * edged_sides p + acc)%Z) 0%Z parts.


End Edgeband.

(** ** More text: [str.strip] and the finger-pull pattern *)

Module TextMore.
Import Text.

(** [s.lstrip()]. *)
Definition lstrip (s : string) : string := snd (span is_space s).

(** [s.rstrip()]. *)
Fixpoint rstrip (s : string) : string :=
  match s with
  | EmptyString => EmptyString
  | String c t =>
      match rstrip t with
      | EmptyString => if is_space c then EmptyString else String c EmptyString
      | t' => String c t'
      end
  end.

(** [s.strip()]. *)
Definition strip (s : string) : string := rstrip (lstrip s).

(** [s.startswith(p)]. *)
Definition startswith (p s : string) : bool := String.prefix p s.

(** [re.match(r"base\s+(\d+)\s+" + kw, s)] on lower-cased text, the
    captured digits.  Each quantifier is greedy and is followed by a
    character outside its class, so the greedy attempt decides. *)
Definition match_base_count_at (kw s : string) : option string :=
  if String.prefix "base" s then
    let rest := String.substring 4 (String.length s - 4) s in
    let '(sp1, r1) := span is_space rest in
    match sp1 with
    | EmptyString => None
    | _ =>
        let '(ds, r2) := span is_digit r1 in
        match ds with
        | EmptyString => None
        | _ =>
            let '(sp2, r3) := span is_space r2 in
            match sp2 with
            | EmptyString => None
            | _ => if String.prefix kw r3 then Some ds else None
            end
        end
    end
  else None.

(** [re.search(r"base\s+(\d+)\s+" + kw, desc, flags=re.IGNORECASE)]. *)
Fixpoint search_base_count (kw s : string) : option string :=
  match match_base_count_at kw s with
  | Some ds => Some ds
  | None =>
      match s with
      | EmptyString => None
      | String _ t => search_base_count kw t
      end
  end.

(** [int(ds)] for a string of digits. *)
Definition digits_int (ds : string) : Z :=
  Z.of_N
    ((fix go (acc : N) (s : string) : N :=
        match s with
        | EmptyString => acc
        | String c t => go (acc * 10 + (N_of_ascii c - 48))%N t
        end) 0%N ds).

End TextMore.

(** ** calculators/hardware.py, and the hardware lines of the client quote *)

Module HardwareCost.
Import Num TextMore.

(** A catalog entry, [{}] when the key is absent. *)
Record CatalogEntry := { unit_price_aud_ex_gst : option Q; pack_size : option Z }.

Definition no_entry : CatalogEntry := {| unit_price_aud_ex_gst := None; pack_size := None |}.

(** [hardware_cat.get(aliases.get(desc, desc), {})]. *)
Definition entry_of (hardware_cat : gmap string CatalogEntry) (aliases : gmap string string)
    (desc : string) : CatalogEntry :=
  let key := default desc (aliases !! desc) in
  default no_entry (hardware_cat !! key).

(** [float(cat.get("unit_price_aud_ex_gst", 0.0) or 0.0)]. *)
Definition unit_of (cat : CatalogEntry) : Q := get_or (unit_price_aud_ex_gst cat) 0 0.

(** [int(cat.get("pack_size", 1) or 1)]. *)
Definition pack_of (cat : CatalogEntry) : Z :=
  let p := default 1%Z (pack_size cat) in if (p =? 0)%Z then 1%Z else p.

(** [(qty + pack - 1) // pack]. *)
Definition packs_needed (qty pack : Z) : Z := ((qty + pack - 1) / pack)%Z.

(** hardware.py, one pass of the loop: the cost of a line. *)
Definition line_cost (hardware_cat : gmap string CatalogEntry) (aliases : gmap string string)
    (h : HardwareCounts.HardwareLine) : Q :=
  let desc := strip (HardwareCounts.description h) in
  let qty := HardwareCounts.qty h in
  let cat := entry_of hardware_cat aliases desc in
  let unit := unit_of cat in
  let pack := pack_of cat in
  let pack := if (pack <=? 0)%Z then 1%Z else pack in
  inject_Z (packs_needed qty pack) * unit * inject_Z pack.

(** [hardware.compute]. *)
Definition compute (hardware : list HardwareCounts.HardwareLine)
    (hardware_cat : gmap string CatalogEntry) (aliases : gmap string string) : Q :=
  round2 (fold_left (fun total h => total + line_cost hardware_cat aliases h) hardware 0).






End HardwareCost.

(** ** calculators/overhead.py, and the overhead summary of web/app.py *)

Module Overhead.
Import Num.

Record Rates := { monthly_aud : option Q; internal_hours : option Q }.


(** An overhead item; the identifier, name and notes that are passed
    through to the summary are left out. *)
Record Item := { item_monthly_aud : option Q; optional : bool; enabled : option bool }.

(** The four running sums of [_calculate_overhead_summary], and the
    separate sum of the second loop. *)
Record Sums := {
  enabled_total : Q;
  optional_enabled_total : Q;
  optional_possible_total : Q;
  all_total : Q
}.

(** [bool(item.get("enabled", True)) if item.get("optional") else True]. *)
Definition is_enabled (it : Item) : bool :=
  if optional it then default true (enabled it) else true.

Definition item_amount (it : Item) : Q := get_or (item_monthly_aud it) 0 0.

(** The body of the inner loop, on the three global sums. *)
Definition add_item (s : Sums) (it : Item) : Sums :=
  let monthly := item_amount it in
  let enabled := is_enabled it in
  let s1 := if enabled then enabled_total s + monthly else enabled_total s in
  let s3 := if optional it then optional_possible_total s + monthly
            else optional_possible_total s in
  let s2 := if optional it && enabled then optional_enabled_total s + monthly
            else optional_enabled_total s in
  {| enabled_total := s1; optional_enabled_total := s2;
     optional_possible_total := s3; all_total := all_total s |}.

(** Both loops over the categories (a list of item lists, in order). *)
Definition running_sums (categories : list (string * list Item)) : Sums :=
  let s :=
    fold_left (fun s cat => fold_left add_item (snd cat) s) categories
      {| enabled_total := 0; optional_enabled_total := 0;
         optional_possible_total := 0; all_total := 0 |} in
  let total_all :=
    fold_left (fun t cat => fold_left (fun t it => t + item_amount it) (snd cat) t)
              categories 0 in
  {| enabled_total := enabled_total s;
     optional_enabled_total := optional_enabled_total s;
     optional_possible_total := optional_possible_total s;
     all_total := total_all |}.

(** The totals of the returned summary. *)
Definition summary_totals (categories : list (string * list Item)) : Sums :=
  let s := running_sums categories in
  {| enabled_total := round2 (enabled_total s);
     optional_enabled_total := round2 (optional_enabled_total s);
     optional_possible_total := round2 (optional_possible_total s);
     all_total := round2 (all_total s) |}.

(** The three running sums are in whole cents. *)
Definition sums_in_cents (s : Sums) : Prop :=
  is_cents (enabled_total s) /\ is_cents (optional_enabled_total s)
  /\ is_cents (optional_possible_total s).

End Overhead.

(** ** calculators/cnc.py *)

Module Cnc.
Import Num.

(** An item of the material breakdown. *)
Record MatItem := { material : string; qty : Z; area_m2 : Q }.

Record Rates := {
  sqm_per_hour : option Q;
  minutes_per_sheet : option Q;
  rental_cnc : option Q;
  machine_cnc : option Q;
  labor_shop : option Q;
  rental_panel_saw : option Q;
  machine_panel_saw : option Q
}.

Record MachineTime := { hours : Q; cost : Q }.
Record Result := { cnc : MachineTime; panel_saw : MachineTime }.

(** [overrides.get(mat, {}).get("panel_saw")], for a material name that is
    not empty. *)
Definition on_panel_saw (overrides : gmap string bool) (mat : string) : bool :=
  if String.eqb mat "" then false else default false (overrides !! mat).

(** The loop: the CNC area and the sheets cut on the saw. *)
Definition split_items (items : list MatItem) (overrides : gmap string bool) : Q * Z :=
  fold_left
    (fun '(cnc_area, saw_sheets) it =>
       if on_panel_saw overrides (material it)
       then (cnc_area, (saw_sheets + qty it)%Z)
       else (cnc_area + or_else (area_m2 it) 0, saw_sheets))
    items (0, 0%Z).

Definition estimate_from_materials (items : list MatItem) (rates : Rates)
    (material_overrides : gmap string bool) : Result :=
  let sqm_per_hour := get_or (sqm_per_hour rates) 10 10 in
  let panel_min_per_sheet := get_or (minutes_per_sheet rates) 15 15 in
  let cnc_rate :=
    get (rental_cnc rates) (get (machine_cnc rates) (get (labor_shop rates) 150)) in
  let panel_rate := get (rental_panel_saw rates) (get (machine_panel_saw rates) 120) in
  let '(cnc_area, saw_sheets) := split_items items material_overrides in
  let cnc_hours := cnc_area / fmax sqm_per_hour 0.0001 in
  let panel_hours := (inject_Z saw_sheets * panel_min_per_sheet) / 60 in
  {| cnc := {| hours := round2 cnc_hours; cost := round2 (cnc_hours * cnc_rate) |};
     panel_saw := {| hours := round2 panel_hours;
                     cost := round2 (panel_hours * panel_rate) |} |}.

End Cnc.

(** ** calculators/edgeband.py: [compute] *)

Module EdgebandCost.
Import Num Text TextMore.

Record BandItem := { spec : string; lm : Q }.

(** A catalog entry, [{}] when the spec is absent. *)
Record BandEntry := { price_per_m : option Q; setup_cost : option Q }.

Definition no_entry : BandEntry := {| price_per_m := None; setup_cost := None |}.

(** [rates["edgeband"]]. *)
Record BandRates := {
  phrase_woodmatt : option Q;
  phrase_plain_black : option Q;
  default_price_per_m : option Q;
  minutes_per_m : option Q;
  setup_minutes : option Q
}.

Record Row := { row_spec : string; row_lm : Q; row_price_per_m : Q; row_cost : Q }.
Record Result := { cost : Q; hours : Q; items : list Row }.

(** The state of the loop. *)
Record State := {
  total_cost : Q;
  setups_cost : Q;
  total_lm : Q;
  seen : gset string;
  rows : list Row
}.

Definition spec_of (b : BandItem) : string := strip (spec b).

(** The price per metre of a spec: catalog, then phrase, then the global
    price, then 0. *)
Definition price_of (bands_cat : gmap string BandEntry) (rates : option BandRates)
    (spec : string) : Q :=
  let cat := default no_entry (bands_cat !! spec) in
  let price_m := price_per_m cat in
  let price_m :=
    match price_m, rates with
    | None, Some r =>
        let sp := lower spec in
        if contains "woodmatt" sp then phrase_woodmatt r
        else if contains " black" (" " ++ sp) && negb (contains "woodmatt" sp)
             then phrase_plain_black r
             else None
    | _, _ => price_m
    end in
  let price_m :=
    match price_m, rates with
    | None, Some r => default_price_per_m r
    | _, _ => price_m
    end in
  or_else (default 0 price_m) 0.

Definition setup_of (bands_cat : gmap string BandEntry) (spec : string) : Q :=
  get_or (setup_cost (default no_entry (bands_cat !! spec))) 0 0.

(** One pass of the loop. *)
Definition step (bands_cat : gmap string BandEntry) (rates : option BandRates)
    (st : State) (b : BandItem) : State :=
  let spec := spec_of b in
  let lm := or_else (lm b) 0 in
  let price_m := price_of bands_cat rates spec in
  let cost := lm * price_m in
  let new_spec := negb (String.eqb spec "") && negb (bool_decide (spec ∈ seen st)) in
  {| total_cost := total_cost st + cost;
     setups_cost := if new_spec then setups_cost st + setup_of bands_cat spec
                    else setups_cost st;
     total_lm := total_lm st + lm;
     seen := if new_spec then {[ spec ]} ∪ seen st else seen st;
     rows := rows st ++ [ {| row_spec := spec; row_lm := round2 lm;
                             row_price_per_m := round2 price_m;
                             row_cost := round2 cost |} ] |}.

Definition initial : State :=
  {| total_cost := 0; setups_cost := 0; total_lm := 0; seen := ∅; rows := [] |}.

Definition run (edgeband : list BandItem) (bands_cat : gmap string BandEntry)
    (rates : option BandRates) : State :=
  fold_left (step bands_cat rates) edgeband initial.

Definition compute (edgeband : list BandItem) (bands_cat : gmap string BandEntry)
    (rates : option BandRates) : Result :=
  let st := run edgeband bands_cat rates in
  let minutes :=
    match rates with
    | Some r =>
        0 + get_or (minutes_per_m r) 0 0 * total_lm st
        + get_or (setup_minutes r) 0 0 * inject_Z (Z.of_nat (size (seen st)))
    | None => 0
    end in
  {| cost := round2 (total_cost st + setups_cost st);
     hours := round2 (minutes / 60);
     items := rows st |}.





End EdgebandCost.

(** ** html.py: [_round_price] and the payment schedule *)

Module Quote.
Import Num.


(** A milestone of [policy["payment_schedule"]]. *)
Record Milestone := { percent : option Q; on_grand_total : bool }.

(** The amount of a milestone (lines 107 to 110). *)
Definition payment_amount (price : Pricing.PriceSummary) (m : Milestone) : Q :=
  let base :=
    or_else (if on_grand_total m then Pricing.total_inc_gst price
             else Pricing.price_ex_gst price) 0 in
  (get (percent m) 0 / 100) * base.

Definition payments (price : Pricing.PriceSummary) (schedule : list Milestone) : list Q :=
  map (payment_amount price) schedule.

End Quote.

(** ** web/app.py: delivery hours and cost in [_compute_project] *)

Module DeliveryCost.
Import Num Products.

Record Config := {
  truck_capacity_cbm : option Q;
  load_hours_per_full : option Q;
  unload_hours_per_trip : option Q;
  travel_hours_per_trip : option Q;
  rental_admin_hours : option Q;
  scale_load_with_fill : option bool;
  delivery_rate : option Q;
  labor_handling : option Q
}.

Record Hours := { load : Q; unload : Q; travel : Q; admin : Q; total : Q }.

Record Result := {
  cbm : Q;
  capacity_cbm : Q;
  trips : Z;
  hours : Hours;
  rate : Q;
  cost : Q
}.


(** The capacity keys, as [Delivery] reads them. *)
Definition capacity_config (cfg : Config) : Delivery.Config :=
  {| Delivery.truck_capacity_cbm := truck_capacity_cbm cfg |}.


End DeliveryCost.

(** ** web/app.py: the finger-pull surcharge in [_compute_project] *)

Module FingerPull.
Import Num Text TextMore Products.

Record Counts := { doors : Z; drawers : Z }.

(** [_count_fp(products, base_only)]. *)
Definition count_fp (ps : list Product) (base_only : bool) : Counts :=
  fold_left
    (fun c p =>
       let desc := description p in
       let d := lower desc in
       if base_only && negb (startswith "base" d) then c
       else
         let drawers :=
           match search_base_count "drawer" d with
           | Some g => (drawers c + digits_int g)%Z
           | None => drawers c
           end in
         let doors :=
           match search_base_count "door" d with
           | Some g => (doors c + digits_int g)%Z
           | None => doors c
           end in
         {| doors := doors; drawers := drawers |})
    ps {| doors := 0; drawers := 0 |}.

(** [overrides["finger_pull"]]. *)
Record Overrides := {
  apply_doors : option bool;
  apply_drawers : option bool;
  base_only : option bool;
  per_part_fee : option Q;
  pickup_fee : option Q;
  override_doors : option Z;
  override_drawers : option Z;
  subtract_doors : option Z;
  subtract_drawers : option Z
}.

(** [rates["finger_pull"]]. *)
Record Defaults := {
  default_per_part_fee : option Q;
  default_pickup_fee : option Q;
  assembly_minutes_per_part : option Q;
  install_minutes_per_part : option Q
}.

Record Result := {
  doors_count : Z;
  drawers_count : Z;
  applied_parts : Z;
  fp_cost : Q;
  fp_asm_hours : Q;
  fp_inst_hours : Q
}.

(** Lines 339 to 357. *)
Definition finger_pull (ps : list Product) (fp_defaults : Defaults) (fp_ov : Overrides)
  : Result :=
  let fp_apply_doors := default true (apply_doors fp_ov) in
  let fp_apply_drawers := default true (apply_drawers fp_ov) in
  let fp_base_only := default true (base_only fp_ov) in
  let per_part_fee :=
    get_or (per_part_fee fp_ov) (get (default_per_part_fee fp_defaults) 15.5) 15.5 in
  let pickup_fee :=
    get_or (pickup_fee fp_ov) (get (default_pickup_fee fp_defaults) 35) 35 in
  let computed_fp := count_fp ps fp_base_only in
  let doors_count := default (doors computed_fp) (override_doors fp_ov) in
  let drawers_count := default (drawers computed_fp) (override_drawers fp_ov) in
  let doors_count := Z.max 0 (doors_count - default 0%Z (subtract_doors fp_ov)) in
  let drawers_count := Z.max 0 (drawers_count - default 0%Z (subtract_drawers fp_ov)) in
  let applied_parts :=
    ((if fp_apply_doors then doors_count else 0)
     + (if fp_apply_drawers then drawers_count else 0))%Z in
  let fp_cost :=
    inject_Z applied_parts * per_part_fee
    + (if (0 <? applied_parts)%Z then pickup_fee else 0) in
  let fp_asm_min := get_or (assembly_minutes_per_part fp_defaults) 10 10 in
  let fp_inst_min := get_or (install_minutes_per_part fp_defaults) 2 2 in
  {| doors_count := doors_count;
     drawers_count := drawers_count;
     applied_parts := applied_parts;
     fp_cost := fp_cost;
     fp_asm_hours := (inject_Z applied_parts * fp_asm_min) / 60;
     fp_inst_hours := (inject_Z applied_parts * fp_inst_min) / 60 |}.

(** Line 453: the edgeband hours once an edge is taken off per finger-pull
    part. *)
Definition edgeband_hours (eb_hours_parts : Q) (fp_edge_count : Z)
    (cfg_minutes_per_edge : option Q) : Q :=
  let minutes_per_edge := get_or cfg_minutes_per_edge 1 1 in
  round2 (fmax 0 (eb_hours_parts - (inject_Z fp_edge_count * minutes_per_edge) / 60)).

End FingerPull.

(** ** web/app.py: allowances, surcharges and the final price *)

Module FinalPricing.
Import Num.

(** [totals.pop(key, None)]. *)
Fixpoint dict_pop (d : list (string * Q)) (key : string) : list (string * Q) :=
  match d with
  | [] => []
  | (k, v) :: rest => if String.eqb k key then rest else (k, v) :: dict_pop rest key
  end.

(** The keys of [policy] that [price] reads. *)
Definition pricing_policy (policy : Html.Policy) : Pricing.Policy :=
  {| Pricing.target_margin := Html.target_margin policy;
     Pricing.rounding := Html.rounding policy |}.

(** Lines 467 to 488: the totals and the price summary that are saved and
    given to the renderer. *)
Definition final_pricing (totals : Pricing.Totals) (rates : Pricing.Rates)
    (policy : Html.Policy) : Pricing.Totals * Pricing.PriceSummary :=
  let allow_flat := get_or (Html.allowances_flat_aud_ex_gst policy) 0 0 in
  let totals :=
    if Qeq_bool allow_flat 0 then totals
    else Html.dict_set totals "allowances" (round2 allow_flat) in
  let surcharge_pct :=
    get_or (Html.warranty_percent policy) 0 0 + get_or (Html.contingency_percent policy) 0 0
    + get_or (Html.merchant_percent policy) 0 0 in
  let surcharge_cost :=
    if Qeq_bool surcharge_pct 0 then 0
    else
      let base_for_sc := Pricing.ex_gst_subtotal totals in
      round2 (base_for_sc * (surcharge_pct / 100)) in
  let price_summary := Pricing.price totals rates (pricing_policy policy) in
  if Qeq_bool surcharge_cost 0
  then (dict_pop totals "surcharges", price_summary)
  else
    let totals := Html.dict_set totals "surcharges" surcharge_cost in
    let subtotal_ex_gst := round2 (Pricing.subtotal_ex_gst price_summary + surcharge_cost) in
    let price_ex_gst := round2 (Pricing.price_ex_gst price_summary + surcharge_cost) in
    let gst_rate := get (Pricing.taxes_gst rates) 0.10 in
    let gst := round2 (price_ex_gst * gst_rate) in
    let total_inc_gst := round2 (price_ex_gst + gst) in
    (totals,
     {| Pricing.subtotal_ex_gst := subtotal_ex_gst;
        Pricing.price_ex_gst := price_ex_gst;
        Pricing.gst := gst;
        Pricing.total_inc_gst := total_inc_gst |}).

(** The totals once the allowances are entered (lines 468 to 470). *)
Definition with_allowances (totals : Pricing.Totals) (policy : Html.Policy) : Pricing.Totals :=
  let allow_flat := get_or (Html.allowances_flat_aud_ex_gst policy) 0 0 in
  if Qeq_bool allow_flat 0 then totals
  else Html.dict_set totals "allowances" (round2 allow_flat).

(** [surcharge_cost] (lines 471 to 476). *)
Definition surcharge_cost (totals : Pricing.Totals) (policy : Html.Policy) : Q :=
  let surcharge_pct :=
    get_or (Html.warranty_percent policy) 0 0 + get_or (Html.contingency_percent policy) 0 0
    + get_or (Html.merchant_percent policy) 0 0 in
  if Qeq_bool surcharge_pct 0 then 0
  else round2 (Pricing.ex_gst_subtotal (with_allowances totals policy) * (surcharge_pct / 100)).

(** The display amounts of the quote rendered from that result: lines 540
    to 557 pass the totals as [category_totals] and the summary as [price]. *)
Definition rendered_display (totals : Pricing.Totals) (rates : Pricing.Rates)
    (policy : Html.Policy) : Html.Display :=
  let '(totals, price_summary) := final_pricing totals rates policy in
  Html.display_amounts policy (list_to_map totals) (Pricing.price_ex_gst price_summary).

End FinalPricing.

(** ** web/app.py: [_slugify] *)

Module Slug.
Import Text TextMore.

(** [ch.isalnum()], on ASCII text. *)
Definition is_alnum (c : ascii) : bool :=
  let n := nat_of_ascii c in
  ((48 <=? n) && (n <=? 57) || (65 <=? n) && (n <=? 90) || (97 <=? n) && (n <=? 122))%nat.

(** [s.replace(" ", "-")]. *)
Fixpoint replace_space (s : string) : string :=
  match s with
  | EmptyString => EmptyString
  | String c t => String (if Ascii.eqb c " " then "-"%char else c) (replace_space t)
  end.

(** [ch.isalnum() or ch in "-_"]. *)
Definition keep (c : ascii) : bool := is_alnum c || Ascii.eqb c "-" || Ascii.eqb c "_".

(** ["".join(ch for ch in s if p(ch))]. *)
Fixpoint filter_chars (p : ascii -> bool) (s : string) : string :=
  match s with
  | EmptyString => EmptyString
  | String c t => if p c then String c (filter_chars p t) else filter_chars p t
  end.

(** [s[:n]]. *)
Fixpoint take (n : nat) (s : string) : string :=
  match n, s with
  | S n', String c t => String c (take n' t)
  | _, _ => EmptyString
  end.

(** [_slugify(name)]. *)
Definition slugify (name : string) : string :=
  let s := replace_space (lower (strip name)) in
  match take 60 (filter_chars keep s) with
  | EmptyString => "project"%string
  | t => t
  end.

(** The characters a slug is made of: lower-case letters, digits, the
    hyphen and the underscore. *)
Definition slug_char (c : ascii) : bool :=
  let n := nat_of_ascii c in
  ((48 <=? n) && (n <=? 57) || (97 <=? n) && (n <=? 122))%nat
  || Ascii.eqb c "-" || Ascii.eqb c "_".

Fixpoint all_chars (p : ascii -> bool) (s : string) : bool :=
  match s with
  | EmptyString => true
  | String c t => p c && all_chars p t
  end.

End Slug.

(** ** normalize/materials.py: [_closest_thickness] and [price_from_attributes] *)

Module MaterialPricing.
Import Num Text.

Definition TYPICAL_THICKNESSES : list Q := [0.7; 12; 16; 18; 25; 32; 33].

(** [min(l, key=key)]: the first element with the least key. *)
Fixpoint min_from (key : Q -> Q) (best : Q) (l : list Q) : Q :=
  match l with
  | [] => best
  | t :: l' => min_from key (if Qlt_le_dec (key t) (key best) then t else best) l'
  end.

Definition min_by (key : Q -> Q) (l : list Q) : option Q :=
  match l with
  | [] => None
  | t :: l' => Some (min_from key t l')
  end.

(** [_closest_thickness(value)]. *)
Definition closest_thickness (value : Q) : Q :=
  if Qle_bool value 0 then 0
  else default 0 (min_by (fun t => Qabs (t - value)) TYPICAL_THICKNESSES).

Definition upper_ascii (c : ascii) : ascii :=
  let n := nat_of_ascii c in
  if ((97 <=? n) && (n <=? 122))%nat then ascii_of_nat (n - 32) else c.

(** [s.upper()], on ASCII text. *)
Fixpoint upper (s : string) : string :=
  match s with
  | EmptyString => EmptyString
  | String c t => String (upper_ascii c) (upper t)
  end.

(** The dict returned by [parse_material_name]. *)
Record Attrs := {
  supplier : option string;
  finish : option string;
  thickness_mm : option Q;
  substrate : option string
}.

(** An entry of the pricing catalog; an absent key is [None]. *)
Record Entry := {
  e_supplier : option string;
  e_finish : option string;
  e_substrate : option string;
  e_thickness_mm : option Q;
  e_price_per_m2_aud_ex_gst : option Q
}.

(** The test of the second loop: supplier, finish and thickness agree. *)
Definition matches_relaxed (attrs : Attrs) (e : Entry) : bool :=
  let s := upper (default ""%string (supplier attrs)) in
  let f := lower (default ""%string (finish attrs)) in
  let t := thickness_mm attrs in
  String.eqb (upper (default ""%string (e_supplier e))) s
  && String.eqb (lower (default ""%string (e_finish e))) f
  && Qeq_bool (get (e_thickness_mm e) 0) (get_or t 0 0).

(** The test of the first loop: the substrate agrees as well. *)
Definition matches_exact (attrs : Attrs) (e : Entry) : bool :=
  let s := upper (default ""%string (supplier attrs)) in
  let f := lower (default ""%string (finish attrs)) in
  let u := upper (default ""%string (substrate attrs)) in
  let t := thickness_mm attrs in
  String.eqb (upper (default ""%string (e_supplier e))) s
  && String.eqb (lower (default ""%string (e_finish e))) f
  && String.eqb (upper (default ""%string (e_substrate e))) u
  && Qeq_bool (get (e_thickness_mm e) 0) (get_or t 0 0).

(** [price_from_attributes(attrs, pricing)]; [pricing] is [None] for a
    missing or empty catalog, and otherwise its list of entries. *)
Definition price_from_attributes (attrs : Attrs) (pricing : option (list Entry)) : option Q :=
  match pricing with
  | None => None
  | Some entries =>
      match List.find (matches_exact attrs) entries with
      | Some e => Some (get (e_price_per_m2_aud_ex_gst e) 0)
      | None =>
          match List.find (matches_relaxed attrs) entries with
          | Some e => Some (get (e_price_per_m2_aud_ex_gst e) 0)
          | None => None
          end
      end
  end.

End MaterialPricing.

(** ** calculators/materials.py *)

Module Materials.
Import Num Text TextMore MaterialPricing.

(** A sheet line of the work order summary. *)
Record Sheet := { material : string; qty : option Q; sheet_size : option string }.

(** An entry of the materials catalog, [{}] when the name is absent. *)
Record CatEntry := {
  price_per_m2_aud_ex_gst : option Q;
  sheet_size_mm : option (Q * Q);
  unit_cost_aud_ex_gst : option Q
}.

Definition no_entry : CatEntry :=
  {| price_per_m2_aud_ex_gst := None; sheet_size_mm := None; unit_cost_aud_ex_gst := None |}.

Inductive Source := FromName | FromAttributes | FromUnit | Unknown.

(** A row of the breakdown (the display text of the sheet size is left out). *)
Record Item := {
  i_material : string;
  i_qty : Z;
  i_area_m2 : Q;
  i_price_per_m2 : Q;
  i_cost : Q;
  i_source : Source
}.


Section Parsers.

(** The two text parsers, [_parse_sheet_size] and [parse_material_name],
    are taken as given: both functions below call them on the same text. *)
Variable parse_sheet_size : string -> Q * Q.
Variable parse_material_name : string -> Attrs.

(** [_area_m2_from_sheet(s, cat)]. *)
Definition area_m2_from_sheet (s : Sheet) (cat : CatEntry) : Q :=
  let from_sheet :=
    match sheet_size s with
    | Some text =>
        if String.eqb text "" then None
        else
          let '(w, h) := parse_sheet_size text in
          if negb (Qeq_bool w 0) && negb (Qeq_bool h 0) then Some ((w * h) / 1000000)
          else None
    | None => None
    end in
  match from_sheet with
  | Some a => a
  | None =>
      match sheet_size_mm cat with
      | Some (w, h) => (w * h) / 1000000
      | None => 1
      end
  end.

Definition name_of (s : Sheet) : string := strip (material s).
Definition qty_of (s : Sheet) : Z := py_int (get_or (qty s) 0 0).
Definition cat_of (materials_cat : gmap string CatEntry) (s : Sheet) : CatEntry :=
  default no_entry (materials_cat !! name_of s).

(** [price_attr]: tried only when a pricing catalog is given. *)
Definition price_attr (attr_pricing : option (list Entry)) (s : Sheet) : option Q :=
  match attr_pricing with
  | None => None
  | Some _ => price_from_attributes (parse_material_name (name_of s)) attr_pricing
  end.

(** What one pass of the loop of [compute] adds to [total]. *)
Definition sheet_cost (materials_cat : gmap string CatEntry) (extra_waste : Q)
    (attr_pricing : option (list Entry)) (s : Sheet) : Q :=
  let cat := cat_of materials_cat s in
  let qty := inject_Z (qty_of s) in
  match price_per_m2_aud_ex_gst cat with
  | Some price_m2 =>
      qty * or_else price_m2 0 * area_m2_from_sheet s cat * (1 + extra_waste)
  | None =>
      match price_attr attr_pricing s with
      | Some p => qty * p * area_m2_from_sheet s cat * (1 + extra_waste)
      | None =>
          let unit := get_or (unit_cost_aud_ex_gst cat) 0 0 in
          qty * unit * (1 + extra_waste)
      end
  end.

(** [compute(sheets, materials_cat, policy, attr_pricing)]. *)
Definition compute (sheets : list Sheet) (materials_cat : gmap string CatEntry)
    (extra_sheet_waste : option Q) (attr_pricing : option (list Entry)) : Q :=
  let extra_waste := get_or extra_sheet_waste 0 0 in
  round2 (fold_left (fun total s => total + sheet_cost materials_cat extra_waste attr_pricing s)
                    sheets 0).






End Parsers.

End Materials.


(** * Properties *)

(** ** Rounding *)

Module NumFacts.
Import Num.

#[export] Instance round_half_even_comp : Proper (Qeq ==> eq) round_half_even.
Proof.
  intros x y H. unfold round_half_even.
  rewrite (Qfloor_comp _ _ H).
  assert (E : x - inject_Z (Qfloor y) == y - inject_Z (Qfloor y)) by (rewrite H; reflexivity).
  rewrite (Qcompare_comp _ _ E _ _ (Qeq_refl (1 # 2))).
  reflexivity.
Qed.

#[export] Instance round2_comp : Proper (Qeq ==> Qeq) round2.
Proof.
  intros x y H. unfold round2.
  assert (E : x * 100 == y * 100) by (rewrite H; reflexivity).
  rewrite (round_half_even_comp _ _ E). reflexivity.
Qed.


Lemma round_half_even_Z (n : Z) : round_half_even (inject_Z n) = n.
Proof.
  unfold round_half_even. rewrite Qfloor_Z.
  assert (E : inject_Z n - inject_Z n == 0) by ring.
  rewrite (Qcompare_comp _ _ E _ _ (Qeq_refl (1 # 2))). reflexivity.
Qed.

(** The nearest integer is within one half. *)
Lemma round_half_even_near (x : Q) :
  Qabs (inject_Z (round_half_even x) - x) <= 1 # 2.
Proof.
  unfold round_half_even.
  pose proof (Qfloor_le x) as Hlo. pose proof (Qlt_floor x) as Hhi.
  rewrite inject_Z_plus in Hhi. change (inject_Z 1) with 1 in Hhi.
  set (f := Qfloor x) in *.
  destruct (Qcompare_spec (x - inject_Z f) (1 # 2)) as [E | L | G].
  - destruct (Z.even f).
    + apply Qabs_case; intros; lra.
    + rewrite inject_Z_plus. change (inject_Z 1) with 1. apply Qabs_case; intros; lra.
  - apply Qabs_case; intros; lra.
  - rewrite inject_Z_plus. change (inject_Z 1) with 1. apply Qabs_case; intros; lra.
Qed.



Lemma is_cents_round2 (x : Q) : is_cents (round2 x).
Proof. exists (round_half_even (x * 100)). reflexivity. Qed.

(** An amount in whole cents is left alone by [round(_, 2)]. *)
Lemma round2_cents (x : Q) : is_cents x -> round2 x == x.
Proof.
  intros [c Hc]. rewrite Hc. unfold round2.
  assert (E : inject_Z c / 100 * 100 == inject_Z c) by field.
  rewrite (round_half_even_comp _ _ E), round_half_even_Z. reflexivity.
Qed.


Lemma is_cents_plus (x y : Q) : is_cents x -> is_cents y -> is_cents (x + y).
Proof.
  intros [a Ha] [b Hb]. exists (a + b)%Z. rewrite Ha, Hb, inject_Z_plus. field.
Qed.

Lemma is_cents_minus (x y : Q) : is_cents x -> is_cents y -> is_cents (x - y).
Proof.
  intros [a Ha] [b Hb]. exists (a - b)%Z. unfold Z.sub.
  rewrite Ha, Hb, inject_Z_plus, inject_Z_opp. field.
Qed.

Lemma is_cents_0 : is_cents 0.
Proof. exists 0%Z. reflexivity. Qed.

Lemma is_cents_comp (x y : Q) : x == y -> is_cents x -> is_cents y.
Proof. intros E [c Hc]. exists c. rewrite <- E. exact Hc. Qed.

(** [round(_, 2)] moves an amount by at most half a cent. *)
Lemma round2_near (x : Q) : Qabs (round2 x - x) <= 1 # 200.
Proof.
  unfold round2. pose proof (round_half_even_near (x * 100)) as H.
  set (r := inject_Z (round_half_even (x * 100))) in *.
  apply Qabs_Qle_condition in H. apply Qabs_Qle_condition.
  unfold Qdiv. change (/ 100) with (1 # 100). lra.
Qed.


Lemma qsum_from (l : list Q) (a : Q) : fold_left Qplus l a == a + qsum l.
Proof.
  unfold qsum. revert a. induction l as [| x l IH]; intros a; simpl.
  - ring.
  - rewrite IH, (IH (0 + x)). ring.
Qed.

Lemma qsum_cons (x : Q) (l : list Q) : qsum (x :: l) == x + qsum l.
Proof. unfold qsum at 1. simpl. rewrite qsum_from. ring. Qed.

Lemma is_pos_spec (x : Q) : is_pos x = true <-> 0 < x.
Proof.
  unfold is_pos. destruct (Qle_bool x 0) eqn:E; simpl.
  - apply Qle_bool_iff in E. split; [discriminate | lra].
  - split; [| reflexivity]. intros _.
    destruct (Qlt_le_dec 0 x) as [L | G]; [exact L |].
    apply Qle_bool_iff in G. congruence.
Qed.

Lemma or_else_0 (x : Q) : or_else x 0 == x.
Proof.
  unfold or_else. destruct (Qeq_bool x 0) eqn:E; [| reflexivity].
  apply Qeq_bool_eq in E. symmetry. exact E.
Qed.

End NumFacts.

(** ** Pricing *)

Module PricingFacts.
Import Num NumFacts Pricing.

(** The fields of the summary, from the value of [price_ex_gst] that
    reaches the [return]. *)
Lemma price_fields (totals : Totals) (rates : Rates) (policy : Policy) :
  let p := price totals rates policy in
  let final := final_price totals policy in
  let gst_rate := get (taxes_gst rates) 0.10 in
  price_ex_gst p = round2 final /\
  gst p = round2 (final * gst_rate) /\
  total_inc_gst p = round2 (final + final * gst_rate).
Proof.
  unfold price, final_price, unrounded_price, rounding_step.
  destruct (0 <? py_int (get (rounding policy) 10))%Z; simpl; auto.
Qed.







End PricingFacts.

(** ** Hardware classification *)

(** ** Hardware classification *)

Module HardwareFacts.
Import Text HardwareCounts.

Ltac split_tests :=
  repeat (simpl;
          match goal with
          | |- context [if ?c then _ else _] => destruct c
          end);
  simpl.

(** One line changes bucket [b] by the line's contribution to [b]. *)
Lemma classify_line_step (b : Bucket) (t : Totals) (h : HardwareLine) :
  bucket_total b (classify_line t h) = (bucket_total b t + contribution b h)%Z.
Proof.
  unfold classify_line, contribution, spec_bucket, spec_rules, first_match.
  generalize (lower (description h)) as d. intros d.
  destruct t as [dk inn hg af bn lu].
  destruct b; split_tests; lia.
Qed.

Lemma classify_fold (b : Bucket) (l : list HardwareLine) (t : Totals) :
  bucket_total b (fold_left classify_line l t) = (bucket_total b t + spec_total b l)%Z.
Proof.
  revert t. induction l as [| h l IH]; intros t; simpl.
  - lia.
  - rewrite IH, classify_line_step. lia.
Qed.

(** A line has one bucket or none, so it contributes to at most one. *)
Lemma contribution_exclusive (b b' : Bucket) (h : HardwareLine) :
  b <> b' -> contribution b h = 0%Z \/ contribution b' h = 0%Z.
Proof.
  intros Hne. unfold contribution.
  destruct (spec_bucket h) as [c |]; [| left; reflexivity].
  destruct c, b, b'; simpl; auto; congruence.
Qed.

(** C5.  Every bucket total of [classify_hardware] is the sum of the
    quantities of the lines whose first matching rule, in the fixed order
    feet, drawer support (ignored), drawer kit or inner drawer, hinge, bin,
    lift mechanism, selects that bucket; a line adds to at most one bucket
    and a line without a match adds nothing.  The line
    "Hinge 165° soft-close" with quantity 40 puts 40 in the hinges bucket. *)
Theorem classify_hardware_first_match (l : list HardwareLine) :
  (forall b, bucket_total b (classify_hardware l) = spec_total b l)
  /\ (forall t h b, bucket_total b (classify_line t h)
                   = (bucket_total b t + contribution b h)%Z)
  /\ (forall h b b', b <> b' -> contribution b h = 0%Z \/ contribution b' h = 0%Z)
  /\ (forall h t, spec_bucket h = None -> classify_line t h = t)
  /\ classify_hardware [ {| description := "Hinge 165° soft-close"; qty := 40 |} ]
     = {| drawer_kits := 0; inner_drawers := 0; hinges := 40;
          adj_feet := 0; bins := 0; liftup := 0 |}.
Proof.
  split.
  { intros b. unfold classify_hardware. rewrite classify_fold. destruct b; reflexivity. }
  split; [intros; apply classify_line_step |].
  split; [intros; apply contribution_exclusive; assumption |].
  split; [| vm_compute; reflexivity].
  intros h t. unfold spec_bucket, classify_line, spec_rules, first_match.
  generalize (lower (description h)) as d. intros d.
  destruct t as [dk inn hg af bn lu].
  split_tests; intros H; try discriminate H; reflexivity.
Qed.

End HardwareFacts.

(** ** Inferred counts and scale factors *)

Module ProductFacts.
Import Num NumFacts Text Products.

Lemma feet_infer_counts (desc : string) (depth : Q) :
  feet (infer_counts desc depth)
  = if negb (Qeq_bool depth 0) && Qle_bool 500 depth then 6 else 0.
Proof. reflexivity. Qed.

Lemma feet_six_iff (desc : string) (depth : Q) :
  feet (infer_counts desc depth) == 6 <-> 500 <= depth.
Proof.
  rewrite feet_infer_counts.
  destruct (Qeq_bool depth 0) eqn:Ez; simpl.
  - apply Qeq_bool_eq in Ez. split; [intros H; discriminate H | intros H; lra].
  - destruct (Qle_bool 500 depth) eqn:El.
    + apply Qle_bool_iff in El. split; [intros _; exact El | reflexivity].
    + split; [intros H; discriminate H |].
      intros H. apply Qle_bool_iff in H. congruence.
Qed.

Lemma feet_six_or_zero (desc : string) (depth : Q) :
  feet (infer_counts desc depth) = 6 \/ feet (infer_counts desc depth) = 0.
Proof.
  rewrite feet_infer_counts.
  destruct (negb (Qeq_bool depth 0) && Qle_bool 500 depth); auto.
Qed.

(** C6.  [infer_counts] sets [feet] to 6 exactly when the depth is at
    least 500 mm and to 0 otherwise, for the function itself and for every
    product the estimator passes to it; "Base 2 Drawer Unit" at depth
    600 mm gets 2 drawers, no door and 6 feet. *)
Theorem infer_counts_feet (desc : string) (depth : Q) :
  (feet (infer_counts desc depth) == 6 <-> 500 <= depth)
  /\ (feet (infer_counts desc depth) == 0 <-> depth < 500)
  /\ (forall hinges_per_door p,
        (feet (counts_of hinges_per_door p) == 6 <-> 500 <= depth_mm p)
        /\ (feet (counts_of hinges_per_door p) == 0 <-> depth_mm p < 500))
  /\ (let c := infer_counts "Base 2 Drawer Unit" 600 in
      drawers c == 2 /\ doors c == 0 /\ feet c == 6).
Proof.
  assert (Z0 : forall d x, feet (infer_counts d x) == 0 <-> x < 500).
  { intros d x. pose proof (feet_six_iff d x) as S6.
    destruct (feet_six_or_zero d x) as [E | E]; rewrite E in *.
    - split; [intros H; discriminate H |].
      intros H. assert (500 <= x) by (apply S6; reflexivity). lra.
    - split; [| reflexivity]. intros _.
      destruct (Qlt_le_dec x 500) as [L | G]; [exact L |].
      apply S6 in G. discriminate G. }
  split; [apply feet_six_iff |]. split; [apply Z0 |]. split.
  - intros hpd p.
    change (feet (counts_of hpd p))
      with (feet (infer_counts (description p) (or_else (depth_mm p) 0))).
    rewrite feet_six_iff, Z0, or_else_0. split; reflexivity.
  - vm_compute. repeat split.
Qed.

Lemma scale_for_spec (c p : Q) : spec_factor c p (scale_for c p) /\ 0 < scale_for c p.
Proof.
  unfold spec_factor, scale_for.
  destruct (is_pos c) eqn:Ec; simpl.
  - destruct (is_pos p) eqn:Ep.
    + apply is_pos_spec in Ec, Ep. split; [split |].
      * intros _. reflexivity.
      * intros H. exfalso. apply H. split; assumption.
      * apply Qlt_shift_div_l; lra.
    + split; [split |]; [| intros _; reflexivity | lra].
      intros [_ H]. apply is_pos_spec in H. congruence.
  - split; [split |]; [| intros _; reflexivity | lra].
    intros [H _]. apply is_pos_spec in H. congruence.
Qed.

Lemma scale_for_comp (c c' p p' : Q) :
  c == c' -> p == p' -> scale_for c p == scale_for c' p'.
Proof.
  intros Hc Hp. unfold scale_for, is_pos.
  rewrite (Qleb_comp _ _ Hc _ _ (Qeq_refl 0)), (Qleb_comp _ _ Hp _ _ (Qeq_refl 0)).
  destruct (negb (Qle_bool c' 0) && negb (Qle_bool p' 0)); [| reflexivity].
  rewrite Hc, Hp. reflexivity.
Qed.

Lemma spec_factor_comp (c p f f' : Q) : f == f' -> spec_factor c p f -> spec_factor c p f'.
Proof. intros E [A B]. split; intros H; rewrite <- E; auto. Qed.

Lemma guarded_entry (n : Z) (x : Q) :
  guarded (inject_Z n, x, scale_for (or_else (inject_Z n) 0) (or_else x 0)).
Proof.
  assert (E : scale_for (or_else (inject_Z n) 0) (or_else x 0) == scale_for (inject_Z n) x)
    by (apply scale_for_comp; apply or_else_0).
  destruct (scale_for_spec (inject_Z n) x) as [S P].
  unfold guarded. split; [| split].
  - apply (spec_factor_comp _ _ (scale_for (inject_Z n) x)); [symmetry; exact E | exact S].
  - rewrite E. exact P.
  - intros Hz. rewrite E. apply S. intros [_ H]. lra.
Qed.

(** C4.  Each of the five scale factors is classified / predicted when
    both totals of its pair are strictly positive and 1 otherwise (so it is
    1 when the predicted total is 0, whatever the classified total); every
    factor is strictly positive.  This holds for the factors of the
    assembly estimator and of the install estimator. *)
Theorem scale_factors_guarded (hw_totals : HardwareCounts.Totals) (predicted_totals : PerKey) :
  Forall guarded (factor_table hw_totals predicted_totals
                               (compute_scales hw_totals predicted_totals))
  /\ (forall products_data rules,
        Assembly.scales products_data rules
        = compute_scales
            (HardwareCounts.classify_hardware (hardware products_data))
            (fst (infer_all (inject_Z (py_int (get (Assembly.hinges_per_door rules) 2)))
                            (products products_data))))
  /\ (forall products_data rules,
        Install.scales products_data rules
        = compute_scales
            (HardwareCounts.classify_hardware (hardware products_data))
            (fst (infer_all (get (Install.hinges_per_door rules) 2)
                            (products products_data)))).
Proof.
  split; [| split].
  - unfold factor_table, compute_scales. simpl.
    repeat (constructor; [apply guarded_entry |]). constructor.
  - intros pd rules. unfold Assembly.scales.
    destruct (infer_all _ _) as [pt pc]. reflexivity.
  - intros pd rules. unfold Install.scales.
    destruct (infer_all _ _) as [pt pc]. reflexivity.
Qed.

End ProductFacts.

(** ** Install: the manual override *)

Module InstallFacts.
Import Num NumFacts Products Install.






End InstallFacts.

(** ** Display reconciliation *)

Module HtmlFacts.
Import Num NumFacts Html.

Lemma values_sum_cons (k : string) (v : Q) (d : list (string * Q)) :
  values_sum ((k, v) :: d) == v + values_sum d.
Proof. unfold values_sum. simpl map. apply qsum_cons. Qed.

(** Assigning a key moves the sum by the difference of the two values. *)
Lemma dict_set_sum (d : list (string * Q)) (key : string) (v : Q) :
  values_sum (dict_set d key v) == values_sum d - dict_get d key 0 + v.
Proof.
  induction d as [| [k w] d IH]; simpl.
  - rewrite values_sum_cons. unfold values_sum, qsum. simpl. ring.
  - destruct (String.eqb k key).
    + rewrite !values_sum_cons. ring.
    + rewrite !values_sum_cons, IH. ring.
Qed.

Lemma dict_get_set_same (d : list (string * Q)) (key : string) (v dflt : Q) :
  dict_get (dict_set d key v) key dflt = v.
Proof.
  induction d as [| [k w] d IH]; simpl.
  - rewrite String.eqb_refl. reflexivity.
  - destruct (String.eqb k key) eqn:E; simpl; rewrite E; auto.
Qed.

Lemma dict_get_set_other (d : list (string * Q)) (key key' : string) (v dflt : Q) :
  key' <> key -> dict_get (dict_set d key v) key' dflt = dict_get d key' dflt.
Proof.
  intros Hne. induction d as [| [k w] d IH]; simpl.
  - destruct (String.eqb key key') eqn:E; [| reflexivity].
    apply String.eqb_eq in E. congruence.
  - destruct (String.eqb k key) eqn:E; simpl.
    + apply String.eqb_eq in E. subst k.
      destruct (String.eqb key key') eqn:E'; [| reflexivity].
      apply String.eqb_eq in E'. congruence.
    + rewrite IH. reflexivity.
Qed.

Lemma all_cents_sum (d : list (string * Q)) : all_cents d -> is_cents (values_sum d).
Proof.
  induction 1 as [| [k v] d Hv _ IH].
  - apply is_cents_0.
  - apply (is_cents_comp (v + values_sum d)).
    + symmetry. apply values_sum_cons.
    + apply is_cents_plus; assumption.
Qed.

Lemma all_cents_get (d : list (string * Q)) (key : string) :
  all_cents d -> is_cents (dict_get d key 0).
Proof.
  induction 1 as [| [k v] d Hv _ IH]; simpl.
  - apply is_cents_0.
  - destruct (String.eqb k key); assumption.
Qed.

Lemma scaled_amounts_cents (policy : Policy) (ct : gmap string Q) :
  all_cents (scaled_amounts policy ct).
Proof.
  unfold scaled_amounts, all_cents. apply Forall_map, Forall_forall.
  intros key _. apply is_cents_round2.
Qed.

(** After [reconcile] the lines sum to the amounts before it plus the
    rounded distance to the price. *)
Lemma reconcile_sum (d : list (string * Q)) (a s pf : Q) :
  all_cents d -> is_cents a -> is_cents s ->
  displayed_sum (reconcile d a s pf)
  == (values_sum d + a + s) + round2 (pf - (values_sum d + a + s)).
Proof.
  intros Hd Ha Hs. unfold displayed_sum, reconcile. cbv zeta.
  unfold category_display, allowances_display, surcharge_display.
  pose proof (all_cents_sum d Hd) as Hsum.
  assert (E1 : round2 (values_sum d + a) == values_sum d + a)
    by (apply round2_cents, is_cents_plus; assumption).
  rewrite dict_set_sum, E1.
  assert (E2 : round2 (dict_get d "install" 0 + round2 (pf - (values_sum d + a + s)))
               == dict_get d "install" 0 + round2 (pf - (values_sum d + a + s))).
  { apply round2_cents, is_cents_plus; [apply all_cents_get; exact Hd |].
    apply is_cents_round2. }
  rewrite E2. ring.
Qed.

Lemma display_fields (policy : Policy) (ct : gmap string Q) (pf : Q) :
  let d := display_amounts policy ct pf in
  allowances_display d = allowances_amount policy ct
  /\ surcharge_display d = surcharge_amount policy ct
  /\ category_display d
     = dict_set (scaled_amounts policy ct) "install"
         (round2 (dict_get (scaled_amounts policy ct) "install" 0
                  + round2 (or_else pf 0
                            - (round2 (values_sum (scaled_amounts policy ct)
                                       + allowances_amount policy ct)
                               + surcharge_amount policy ct)))).
Proof. repeat split. Qed.

Lemma display_sum (policy : Policy) (ct : gmap string Q) (pf : Q) :
  let d := display_amounts policy ct pf in
  let before := values_sum (scaled_amounts policy ct) + allowances_display d
                + surcharge_display d in
  is_cents before /\ displayed_sum d == before + round2 (pf - before).
Proof.
  intros d before. destruct (display_fields policy ct pf) as (Ha & Hs & _).
  unfold before. fold d in Ha, Hs. rewrite Ha, Hs. split.
  - apply is_cents_plus; [apply is_cents_plus |];
      [apply all_cents_sum, scaled_amounts_cents | apply is_cents_round2 ..].
  - unfold d, display_amounts. rewrite reconcile_sum;
      [| apply scaled_amounts_cents | apply is_cents_round2 | apply is_cents_round2].
    rewrite (or_else_0 pf). reflexivity.
Qed.

Lemma display_sum_exact (policy : Policy) (ct : gmap string Q) (pf : Q) :
  is_cents pf -> displayed_sum (display_amounts policy ct pf) == pf.
Proof.
  intros Hpf. destruct (display_sum policy ct pf) as [Hb E]. rewrite E.
  rewrite round2_cents by (apply is_cents_minus; assumption). ring.
Qed.

(** C1.  After the reconciliation the category lines, the allowances line
    and the surcharges line sum to [price_ex_gst] of the price summary,
    for every price summary that [price] returns and for every price given
    to two decimals; for any other price they sum to an amount in whole
    cents within half a cent of it.  The delta, which is the rounded
    difference between the price and the amounts scaled one by one, goes to
    [install] alone: every other category keeps its scaled amount. *)
Theorem display_sums_to_price (policy : Policy) (ct : gmap string Q) :
  (forall totals rates pricing_policy,
     let summary := Pricing.price totals rates pricing_policy in
     displayed_sum (display_amounts policy ct (Pricing.price_ex_gst summary))
     == Pricing.price_ex_gst summary)
  /\ (forall x, displayed_sum (display_amounts policy ct (round2 x)) == round2 x)
  /\ (forall price_final,
        is_cents (displayed_sum (display_amounts policy ct price_final))
        /\ Qabs (displayed_sum (display_amounts policy ct price_final) - price_final)
           <= 1 # 200)
  /\ (forall price_final,
        let d := display_amounts policy ct price_final in
        let delta := rounding_delta policy ct price_final in
        delta == round2 (price_final
                         - (values_sum (scaled_amounts policy ct)
                            + allowances_display d + surcharge_display d))
        /\ dict_get (category_display d) "install" 0
           == dict_get (scaled_amounts policy ct) "install" 0 + delta
        /\ (forall key, key <> "install"%string ->
              dict_get (category_display d) key 0
              = dict_get (scaled_amounts policy ct) key 0)).
Proof.
  split; [| split; [| split]].
  - intros totals rates pp summary. apply display_sum_exact.
    destruct (PricingFacts.price_fields totals rates pp) as (Hp & _ & _).
    unfold summary. rewrite Hp. apply is_cents_round2.
  - intros x. apply display_sum_exact, is_cents_round2.
  - intros pf. destruct (display_sum policy ct pf) as [Hb E]. split.
    + apply (is_cents_comp _ _ (Qeq_sym _ _ E)).
      apply is_cents_plus; [exact Hb | apply is_cents_round2].
    + rewrite E. set (b := _ + _ + _) in *.
      pose proof (round2_near (pf - b)) as N.
      apply Qabs_Qle_condition in N. apply Qabs_Qle_condition. lra.
  - intros pf d delta.
    pose proof (scaled_amounts_cents policy ct) as Hsc.
    assert (Hd : delta == round2 (pf - (values_sum (scaled_amounts policy ct)
                                         + allowances_display d + surcharge_display d))).
    { unfold delta, rounding_delta. fold d.
      assert (E1 : round2 (values_sum (scaled_amounts policy ct) + allowances_display d)
                   == values_sum (scaled_amounts policy ct) + allowances_display d).
      { apply round2_cents, is_cents_plus; [apply all_cents_sum; exact Hsc |].
        apply is_cents_round2. }
      rewrite E1, (or_else_0 pf). reflexivity. }
    split; [exact Hd |]. split.
    + destruct (display_fields policy ct pf) as (Ha & Hs & Hc). fold d in Ha, Hs, Hc.
      rewrite Hc, dict_get_set_same, Hd, Ha, Hs.
      assert (E1 : round2 (values_sum (scaled_amounts policy ct) + allowances_amount policy ct)
                   == values_sum (scaled_amounts policy ct) + allowances_amount policy ct).
      { apply round2_cents, is_cents_plus; [apply all_cents_sum; exact Hsc |].
        apply is_cents_round2. }
      rewrite E1, (or_else_0 pf).
      apply round2_cents, is_cents_plus; [apply all_cents_get; exact Hsc |].
      apply is_cents_round2.
    + intros key Hk. destruct (display_fields policy ct pf) as (_ & _ & Hc).
      fold d in Hc. rewrite Hc. apply dict_get_set_other. exact Hk.
Qed.

End HtmlFacts.

(** ** Delivery trips *)

Module DeliveryFacts.
Import Num NumFacts Products Delivery.










End DeliveryFacts.

(** ** Edgeband time from the parts list *)

Module EdgebandFacts.
Import Num NumFacts Edgeband.

(** The four keys of one part add its counted quantity once per flag set. *)
Lemma count_part_step (c : Z) (p : Part) :
  count_part c p = (c + counted_qty p * edged_sides p)%Z.
Proof.
  unfold count_part, edged_sides, counted_qty, flag_keys. simpl.
  destruct (flag_set (eb_flags p) "EBW1"), (flag_set (eb_flags p) "EBL1"),
    (flag_set (eb_flags p) "EBW2"), (flag_set (eb_flags p) "EBL2");
    simpl; lia.
Qed.

Lemma count_edges_from (parts : list Part) (c : Z) :
  fold_left count_part parts c = (c + counted_edges parts)%Z.
Proof.
  revert c. induction parts as [| p parts IH]; intros c; simpl.
  - lia.
  - rewrite IH, count_part_step. lia.
Qed.




End EdgebandFacts.

(** ** Override merge *)

Module OverrideFacts.
Import Override.

Lemma updated_dict (src dst : gmap string value) :
  updated (VDict src) (Some (VDict dst)) = VDict (deep_update dst src).
Proof. reflexivity. Qed.

Lemma updated_not_dict (v : value) (old : option value) :
  (forall dst, old <> Some (VDict dst)) -> updated v old = v.
Proof.
  intros H. destruct v as [s | l | src]; try reflexivity.
  destruct old as [[s | l | dst] |]; try reflexivity.
  exfalso. apply (H dst). reflexivity.
Qed.

(** After the loop, a key of [src] holds its updated value and every other
    key of [dst] what it held before. *)
Lemma deep_update_lookup (dst src : gmap string value) (k : string) :
  deep_update dst src !! k
  = match src !! k with
    | Some v => Some (updated v (dst !! k))
    | None => dst !! k
    end.
Proof.
  unfold deep_update. revert k.
  apply (map_fold_weak_ind
           (fun r m => forall k : string,
                r !! k = match m !! k with
                         | Some v => Some (updated v (dst !! k))
                         | None => dst !! k
                         end)).
  - intros k. rewrite lookup_empty. reflexivity.
  - intros i x m r Hi IH k.
    destruct (decide (i = k)) as [-> | Hne].
    + rewrite !lookup_insert_eq. rewrite (IH k), Hi. reflexivity.
    + rewrite !lookup_insert_ne by assumption. apply IH.
Qed.

Lemma depth_lookup (m : gmap string value) (k : string) (v : value) :
  m !! k = Some v -> (depth v < depth (VDict m))%nat.
Proof.
  simpl. revert k v.
  apply (map_fold_weak_ind
           (fun r m => forall (k : string) (v : value),
                m !! k = Some v -> (depth v < S r)%nat)).
  - intros k v H. rewrite lookup_empty in H. discriminate H.
  - intros i x m' r Hi IH k v H.
    destruct (decide (i = k)) as [-> | Hne].
    + rewrite lookup_insert_eq in H. injection H as ->. lia.
    + rewrite lookup_insert_ne in H by assumption.
      specialize (IH k v H). lia.
Qed.

(** Merging a value a second time, and merging a value into itself,
    change nothing. *)
Lemma updated_twice (n : nat) (v : value) :
  (depth v <= n)%nat ->
  (forall old, updated v (Some (updated v old)) = updated v old)
  /\ updated v (Some v) = v.
Proof.
  revert v. induction n as [| n IH]; intros v Hn.
  - destruct v as [s | l | src]; [split; intros; reflexivity .. |].
    simpl in Hn. lia.
  - destruct v as [s | l | src]; [split; intros; reflexivity .. |].
    assert (Hel : forall k x, src !! k = Some x ->
                    (forall old, updated x (Some (updated x old)) = updated x old)
                    /\ updated x (Some x) = x).
    { intros k x Hk. apply IH. pose proof (depth_lookup src k x Hk). lia. }
    assert (Hself : updated (VDict src) (Some (VDict src)) = VDict src).
    { rewrite updated_dict. f_equal. apply map_eq. intros k.
      rewrite deep_update_lookup. destruct (src !! k) as [x |] eqn:Hk; [| reflexivity].
      f_equal. apply (Hel k x Hk). }
    split; [| exact Hself].
    intros old. destruct old as [[s | l | dst] |]; try exact Hself.
    rewrite !updated_dict. f_equal. apply map_eq. intros k.
    rewrite !deep_update_lookup. destruct (src !! k) as [x |] eqn:Hk; [| reflexivity].
    f_equal. apply (Hel k x Hk).
Qed.

(** C9.  Merging the same override document a second time leaves the
    configuration as the first merge made it, for every base configuration
    and every override document; a document merged into itself, which is
    what the second merge meets under every key the first one assigned, is
    left as it is. *)
Theorem deep_update_idempotent (base override : gmap string value) :
  deep_update (deep_update base override) override = deep_update base override
  /\ deep_update override override = override.
Proof.
  split.
  - apply map_eq. intros k. rewrite !deep_update_lookup.
    destruct (override !! k) as [x |]; [| reflexivity].
    f_equal. apply (updated_twice (depth x) x). lia.
  - apply map_eq. intros k. rewrite deep_update_lookup.
    destruct (override !! k) as [x |]; [| reflexivity].
    f_equal. apply (updated_twice (depth x) x). lia.
Qed.

End OverrideFacts.

(** ** More on rounding: order *)

Module NumMore.
Import Num NumFacts.

Lemma round_half_even_bounds (x : Q) :
  (Qfloor x <= round_half_even x <= Qfloor x + 1)%Z.
Proof.
  unfold round_half_even.
  destruct (Qcompare _ _); try destruct (Z.even _); lia.
Qed.

(** Rounding to the nearest integer keeps the order. *)
Lemma round_half_even_mono (x y : Q) :
  x <= y -> (round_half_even x <= round_half_even y)%Z.
Proof.
  intros H. pose proof (Qfloor_resp_le x y H) as F.
  destruct (Z.eq_dec (Qfloor x) (Qfloor y)) as [E | N].
  - unfold round_half_even. rewrite <- E.
    destruct (Qcompare_spec (x - inject_Z (Qfloor x)) (1 # 2)) as [Ex | Lx | Gx];
      destruct (Qcompare_spec (y - inject_Z (Qfloor x)) (1 # 2)) as [Ey | Ly | Gy];
      try destruct (Z.even (Qfloor x)); try lia; exfalso; lra.
  - pose proof (round_half_even_bounds x). pose proof (round_half_even_bounds y). lia.
Qed.

Lemma round2_mono (x y : Q) : x <= y -> round2 x <= round2 y.
Proof.
  intros H. unfold round2.
  assert (M : (round_half_even (x * 100) <= round_half_even (y * 100))%Z)
    by (apply round_half_even_mono; lra).
  rewrite Zle_Qle in M. unfold Qdiv. change (/ 100) with (1 # 100). lra.
Qed.

Lemma round2_0 : round2 0 == 0.
Proof. reflexivity. Qed.

Lemma round2_zero (x : Q) : x == 0 -> round2 x == 0.
Proof. intros H. rewrite H. reflexivity. Qed.

Lemma round2_nonneg (x : Q) : 0 <= x -> 0 <= round2 x.
Proof. intros H. rewrite <- round2_0. apply round2_mono. exact H. Qed.

Lemma fmax_lower (a b : Q) : b <= fmax a b /\ a <= fmax a b.
Proof. unfold fmax. destruct (Qlt_le_dec a b); split; lra. Qed.


Lemma qsum_app (l1 l2 : list Q) : qsum (l1 ++ l2) == qsum l1 + qsum l2.
Proof.
  induction l1 as [| x l1 IH]; simpl.
  - unfold qsum at 2. simpl. ring.
  - rewrite !qsum_cons, IH. ring.
Qed.

Lemma qsum_nil : qsum [] == 0.
Proof. reflexivity. Qed.



End NumMore.

(** ** More on pricing *)

Module PricingMore.
Import Num NumFacts NumMore Pricing.

Lemma divisor_positive (policy : Policy) :
  0 < fmax (1 - get (target_margin policy) 0.30) 0.0001.
Proof. pose proof (fmax_lower (1 - get (target_margin policy) 0.30) 0.0001). lra. Qed.

Lemma inject_step (policy : Policy) :
  (0 < rounding_step policy)%Z -> 0 < inject_Z (rounding_step policy).
Proof. intros H. change 0 with (inject_Z 0). rewrite <- Zlt_Qlt. exact H. Qed.

(** A job whose costs sum to zero is priced at zero, whatever the margin,
    the rounding increment and the GST rate. *)
Theorem price_of_nothing (totals : Totals) (rates : Rates) (policy : Policy) :
  ex_gst_subtotal totals == 0 ->
  let p := price totals rates policy in
  subtotal_ex_gst p == 0 /\ price_ex_gst p == 0 /\ gst p == 0 /\ total_inc_gst p == 0.
Proof.
  intros Hz p.
  destruct (PricingFacts.price_fields totals rates policy) as (Hp & Hg & Ht).
  fold p in Hp, Hg, Ht.
  assert (U : unrounded_price totals policy == 0).
  { unfold unrounded_price. rewrite Hz. field.
    pose proof (divisor_positive policy). lra. }
  assert (F : final_price totals policy == 0).
  { unfold final_price. fold (rounding_step policy).
    destruct (0 <? rounding_step policy)%Z eqn:ER; [| exact U].
    apply Z.ltb_lt in ER. pose proof (inject_step policy ER) as HR.
    assert (E : (unrounded_price totals policy + inject_Z (rounding_step policy) / 2)
                / inject_Z (rounding_step policy) == 1 # 2)
      by (rewrite U; field; lra).
    rewrite (Qfloor_comp _ _ E). reflexivity. }
  split.
  - assert (Hs : subtotal_ex_gst p = round2 (ex_gst_subtotal totals)).
    { unfold p, price. destruct (0 <? py_int (get (rounding policy) 10))%Z; reflexivity. }
    rewrite Hs, Hz. reflexivity.
  - rewrite Hp, Hg, Ht, F. split; [| split]; reflexivity.
Qed.

Lemma price_of_nothing_witness :
  price_ex_gst (price [] {| taxes_gst := None |}
                      {| target_margin := None; rounding := None |}) == 0.
Proof.
  assert (H : ex_gst_subtotal [] == 0) by reflexivity.
  exact (proj1 (proj2 (price_of_nothing []
                         {| taxes_gst := None |}
                         {| target_margin := None; rounding := None |} H))).
Defined.



(** Under one policy, a higher subtotal never gives a lower price. *)
Theorem price_monotone (t1 t2 : Totals) (rates : Rates) (policy : Policy) :
  ex_gst_subtotal t1 <= ex_gst_subtotal t2 ->
  price_ex_gst (price t1 rates policy) <= price_ex_gst (price t2 rates policy).
Proof.
  intros H.
  destruct (PricingFacts.price_fields t1 rates policy) as (H1 & _ & _).
  destruct (PricingFacts.price_fields t2 rates policy) as (H2 & _ & _).
  rewrite H1, H2. apply round2_mono.
  pose proof (divisor_positive policy) as D.
  assert (U : unrounded_price t1 policy <= unrounded_price t2 policy).
  { unfold unrounded_price. unfold Qdiv. apply Qmult_le_compat_r; [exact H |].
    apply Qlt_le_weak, Qinv_lt_0_compat. exact D. }
  unfold final_price. destruct (0 <? rounding_step policy)%Z eqn:ER; [| exact U].
  apply Z.ltb_lt in ER. pose proof (inject_step policy ER) as HR.
  rewrite <- Zle_Qle. apply Z.mul_le_mono_nonneg_r; [lia |].
  apply Qfloor_resp_le. unfold Qdiv. apply Qmult_le_compat_r; [lra |].
  apply Qlt_le_weak, Qinv_lt_0_compat. exact HR.
Qed.

Lemma price_monotone_witness :
  price_ex_gst (price [("materials"%string, 1000)] {| taxes_gst := None |}
                      {| target_margin := None; rounding := None |})
  <= price_ex_gst (price [("materials"%string, 1001)] {| taxes_gst := None |}
                         {| target_margin := None; rounding := None |}).
Proof.
  apply (price_monotone [("materials"%string, 1000)] [("materials"%string, 1001)]).
  vm_compute. discriminate.
Defined.

End PricingMore.

(** ** The price rounding and the payment schedule of the client quote *)

Module QuoteFacts.
Import Num NumFacts NumMore Quote.



Lemma payments_sum (price : Pricing.PriceSummary) (schedule : list Milestone) (b : bool) :
  Forall (fun m => on_grand_total m = b) schedule ->
  qsum (payments price schedule)
  == qsum (map (fun m => get (percent m) 0) schedule) / 100
     * (if b then Pricing.total_inc_gst price else Pricing.price_ex_gst price).
Proof.
  induction 1 as [| m l Hm _ IH]; simpl.
  - unfold qsum. simpl. field.
  - rewrite !qsum_cons. unfold payments in IH. rewrite IH.
    unfold payment_amount. rewrite Hm, or_else_0. field.
Qed.

(** When every milestone is taken on the same base and the percentages
    add up to 100, the payments add up to that base: the total including
    GST, or the price excluding GST. *)
Theorem payments_cover_the_price (price : Pricing.PriceSummary) (schedule : list Milestone)
    (b : bool) :
  Forall (fun m => on_grand_total m = b) schedule ->
  qsum (map (fun m => get (percent m) 0) schedule) == 100 ->
  qsum (payments price schedule)
  == if b then Pricing.total_inc_gst price else Pricing.price_ex_gst price.
Proof.
  intros Hb Hs. rewrite (payments_sum price schedule b Hb), Hs. field.
Qed.

Lemma payments_cover_the_price_witness :
  let price := {| Pricing.subtotal_ex_gst := 1000; Pricing.price_ex_gst := 1430;
                  Pricing.gst := 143; Pricing.total_inc_gst := 1573 |} in
  let schedule := [ {| percent := Some 40; on_grand_total := true |};
                    {| percent := Some 50; on_grand_total := true |};
                    {| percent := Some 10; on_grand_total := true |} ] in
  qsum (payments price schedule) == 1573.
Proof.
  intros price schedule.
  apply (payments_cover_the_price price schedule true).
  - repeat constructor.
  - reflexivity.
Defined.

End QuoteFacts.

(** ** Hardware cost *)

(** ** Hardware cost *)

Module HardwareCostFacts.
Import Num NumFacts NumMore TextMore HardwareCost.

(** Rounding up to whole packs: the least multiple of the pack size that
    covers the quantity. *)
Lemma packs_cover (qty pack : Z) :
  (1 <= pack)%Z ->
  (qty <= packs_needed qty pack * pack < qty + pack)%Z
  /\ (pack | packs_needed qty pack * pack)%Z.
Proof.
  intros Hp. unfold packs_needed.
  pose proof (Z.div_mod (qty + pack - 1) pack) as D.
  pose proof (Z.mod_pos_bound (qty + pack - 1) pack) as B.
  split; [| exists ((qty + pack - 1) / pack)%Z; reflexivity].
  assert (pack <> 0)%Z by lia. specialize (D ltac:(assumption)).
  specialize (B ltac:(lia)).
  set (d := ((qty + pack - 1) / pack)%Z) in *.
  set (r := ((qty + pack - 1) mod pack)%Z) in *.
  lia.
Qed.

Lemma effective_pack (cat : CatalogEntry) :
  (1 <= (if (pack_of cat <=? 0)%Z then 1 else pack_of cat))%Z.
Proof. destruct (pack_of cat <=? 0)%Z eqn:E; [lia | apply Z.leb_gt in E; lia]. Qed.

(** Every line is billed in whole packs: the units billed are the least
    multiple of the pack size at or above the quantity, a pack size that
    is missing, zero or negative counting as 1; a line whose catalog key
    is unknown costs nothing. *)
Theorem hardware_billed_in_packs (hardware_cat : gmap string CatalogEntry)
    (aliases : gmap string string) (h : HardwareCounts.HardwareLine) :
  let desc := strip (HardwareCounts.description h) in
  let cat := entry_of hardware_cat aliases desc in
  let pack := if (pack_of cat <=? 0)%Z then 1%Z else pack_of cat in
  let billed := (packs_needed (HardwareCounts.qty h) pack * pack)%Z in
  (1 <= pack)%Z
  /\ (HardwareCounts.qty h <= billed < HardwareCounts.qty h + pack)%Z
  /\ (pack | billed)%Z
  /\ line_cost hardware_cat aliases h == inject_Z billed * unit_of cat
  /\ (hardware_cat !! default desc (aliases !! desc) = None ->
      line_cost hardware_cat aliases h == 0).
Proof.
  intros desc cat pack billed.
  pose proof (effective_pack cat) as Hp. fold pack in Hp.
  destruct (packs_cover (HardwareCounts.qty h) pack Hp) as [B D].
  split; [exact Hp |]. split; [exact B |]. split; [exact D |].
  assert (E : line_cost hardware_cat aliases h == inject_Z billed * unit_of cat).
  { unfold line_cost. fold desc. fold cat. fold pack. unfold billed.
    rewrite inject_Z_mult. ring. }
  split; [exact E |].
  intros Hnone.
  assert (U : unit_of cat == 0).
  { unfold cat, entry_of. fold desc. rewrite Hnone. reflexivity. }
  rewrite E, U. ring.
Qed.






End HardwareCostFacts.

(** ** Overhead *)

Module OverheadFacts.
Import Num NumFacts NumMore Overhead.


Lemma add_item_balance (s : Sums) (t : Q) (it : Item) :
  enabled_total s + (optional_possible_total s - optional_enabled_total s) == t ->
  let s' := add_item s it in
  enabled_total s' + (optional_possible_total s' - optional_enabled_total s')
  == t + item_amount it.
Proof.
  intros H. unfold add_item, is_enabled. simpl.
  destruct (optional it); [destruct (default true (enabled it)) |]; simpl; lra.
Qed.

Lemma items_balance (items : list Item) (s : Sums) (t : Q) :
  enabled_total s + (optional_possible_total s - optional_enabled_total s) == t ->
  let s' := fold_left add_item items s in
  enabled_total s' + (optional_possible_total s' - optional_enabled_total s')
  == fold_left (fun t it => t + item_amount it) items t.
Proof.
  revert s t. induction items as [| it items IH]; intros s t H; simpl.
  - exact H.
  - apply IH. apply add_item_balance. exact H.
Qed.

Lemma categories_balance (categories : list (string * list Item)) (s : Sums) (t : Q) :
  enabled_total s + (optional_possible_total s - optional_enabled_total s) == t ->
  let s' := fold_left (fun s cat => fold_left add_item (snd cat) s) categories s in
  enabled_total s' + (optional_possible_total s' - optional_enabled_total s')
  == fold_left (fun t cat => fold_left (fun t it => t + item_amount it) (snd cat) t)
               categories t.
Proof.
  revert s t. induction categories as [| c cs IH]; intros s t H; simpl.
  - exact H.
  - apply IH. apply items_balance. exact H.
Qed.

Lemma add_item_cents (s : Sums) (it : Item) :
  is_cents (item_amount it) -> sums_in_cents s -> sums_in_cents (add_item s it).
Proof.
  intros Hc (A & B & C). unfold sums_in_cents, add_item. simpl.
  destruct (is_enabled it), (optional it); simpl;
    repeat split; try assumption; apply is_cents_plus; assumption.
Qed.

Lemma categories_cents (categories : list (string * list Item)) (s : Sums) (t : Q) :
  Forall (fun cat => Forall (fun it => is_cents (item_amount it)) (snd cat)) categories ->
  sums_in_cents s -> is_cents t ->
  sums_in_cents (fold_left (fun s cat => fold_left add_item (snd cat) s) categories s)
  /\ is_cents (fold_left (fun t cat => fold_left (fun t it => t + item_amount it) (snd cat) t)
                         categories t).
Proof.
  intros H. revert s t. induction H as [| c cs Hc _ IH]; intros s t Hs Ht; simpl.
  - split; assumption.
  - assert (I : sums_in_cents (fold_left add_item (snd c) s)
                /\ is_cents (fold_left (fun t it => t + item_amount it) (snd c) t)).
    { clear IH. revert s t Hs Ht. induction Hc as [| it its Hi _ IHi]; intros s t Hs Ht; simpl.
      - split; assumption.
      - apply IHi; [apply add_item_cents; assumption | apply is_cents_plus; assumption]. }
    destruct I as [I1 I2]. apply IH; assumption.
Qed.

(** In the overhead summary, what is enabled plus the optional items that
    are switched off is everything: enabled + (optional possible -
    optional enabled) = all.  An item that is not optional counts as
    enabled whatever its flag says.  The identity holds on the running
    sums, and on the rounded totals returned when every monthly amount is
    in whole cents. *)
Theorem overhead_totals_balance (categories : list (string * list Item)) :
  (let s := running_sums categories in
   enabled_total s + (optional_possible_total s - optional_enabled_total s) == all_total s)
  /\ (Forall (fun cat => Forall (fun it => is_cents (item_amount it)) (snd cat)) categories ->
      let s := summary_totals categories in
      enabled_total s + (optional_possible_total s - optional_enabled_total s)
      == all_total s).
Proof.
  assert (B : let s := running_sums categories in
              enabled_total s + (optional_possible_total s - optional_enabled_total s)
              == all_total s).
  { unfold running_sums. cbn [enabled_total optional_possible_total optional_enabled_total
                                all_total].
    apply categories_balance. simpl. ring. }
  split; [exact B |].
  intros Hc. unfold summary_totals.
  cbn [enabled_total optional_possible_total optional_enabled_total all_total].
  assert (Z0 : sums_in_cents {| enabled_total := 0; optional_enabled_total := 0;
                                optional_possible_total := 0; all_total := 0 |})
    by (repeat split; apply is_cents_0).
  destruct (categories_cents categories _ 0 Hc Z0 is_cents_0) as [(C1 & C2 & C3) C4].
  assert (R1 : round2 (enabled_total (running_sums categories))
               == enabled_total (running_sums categories))
    by (apply round2_cents; exact C1).
  assert (R2 : round2 (optional_enabled_total (running_sums categories))
               == optional_enabled_total (running_sums categories))
    by (apply round2_cents; exact C2).
  assert (R3 : round2 (optional_possible_total (running_sums categories))
               == optional_possible_total (running_sums categories))
    by (apply round2_cents; exact C3).
  assert (R4 : round2 (all_total (running_sums categories))
               == all_total (running_sums categories))
    by (apply round2_cents; exact C4).
  rewrite R1, R2, R3, R4. exact B.
Qed.

End OverheadFacts.

(** ** CNC and panel saw *)

Module CncFacts.
Import Num NumFacts NumMore Cnc.

Lemma split_items_from (items : list MatItem) (overrides : gmap string bool) (a : Q) (n : Z) :
  let step := fun '(cnc_area, saw_sheets) it =>
                if on_panel_saw overrides (material it)
                then (cnc_area, (saw_sheets + qty it)%Z)
                else (cnc_area + or_else (area_m2 it) 0, saw_sheets) in
  let r := fold_left step items (a, n) in
  fst r == a + qsum (map (fun it => area_m2 it)
                         (List.filter (fun it => negb (on_panel_saw overrides (material it)))
                                      items))
  /\ snd r = (n + fold_right Z.add 0%Z
                    (map qty (List.filter (fun it => on_panel_saw overrides (material it))
                                          items)))%Z.
Proof.
  intros step. revert a n. induction items as [| it items IH]; intros a n; simpl.
  - rewrite qsum_nil. split; [ring | lia].
  - destruct (on_panel_saw overrides (material it)) eqn:E; simpl.
    + destruct (IH a (n + qty it)%Z) as [A B]. split; [exact A | rewrite B; lia].
    + destruct (IH (a + or_else (area_m2 it) 0) n) as [A B].
      split; [| exact B]. rewrite A, qsum_cons, or_else_0. ring.
Qed.

(** Every material goes to one machine: the CNC area is the area of the
    materials not flagged for the panel saw, and the sheets on the saw are
    the sheets of the flagged ones.  Without material overrides the panel
    saw has no hours and no cost. *)
Theorem materials_on_one_machine (items : list MatItem) (rates : Rates)
    (overrides : gmap string bool) :
  fst (split_items items overrides)
  == qsum (map (fun it => area_m2 it)
               (List.filter (fun it => negb (on_panel_saw overrides (material it))) items))
  /\ snd (split_items items overrides)
     = fold_right Z.add 0%Z
         (map qty (List.filter (fun it => on_panel_saw overrides (material it)) items))
  /\ hours (panel_saw (estimate_from_materials items rates ∅)) == 0
  /\ cost (panel_saw (estimate_from_materials items rates ∅)) == 0.
Proof.
  destruct (split_items_from items overrides 0 0%Z) as [A B].
  split; [unfold split_items; rewrite A; ring |].
  split; [unfold split_items; rewrite B; lia |].
  destruct (split_items_from items ∅ 0 0%Z) as [_ B0].
  assert (F : List.filter (fun it => on_panel_saw ∅ (material it)) items = []).
  { clear. induction items as [| it items IH]; simpl; [reflexivity |].
    assert (E : on_panel_saw ∅ (material it) = false).
    { unfold on_panel_saw. rewrite lookup_empty. destruct (String.eqb _ _); reflexivity. }
    rewrite E. exact IH. }
  rewrite F in B0. simpl in B0.
  unfold estimate_from_materials. fold (split_items items ∅) in B0.
  destruct (split_items items ∅) as [area sheets]. simpl in B0. subst sheets.
  cbn [panel_saw hours cost].
  assert (E0 : inject_Z 0 * get_or (minutes_per_sheet rates) 15 15 / 60 == 0) by (field).
  split.
  - rewrite E0. reflexivity.
  - assert (E1 : inject_Z 0 * get_or (minutes_per_sheet rates) 15 15 / 60
                 * get (rental_panel_saw rates) (get (machine_panel_saw rates) 120) == 0)
      by field.
    rewrite E1. reflexivity.
Qed.

End CncFacts.

(** ** Edgeband cost *)

Module EdgebandCostFacts.
Import Num NumFacts NumMore Text TextMore EdgebandCost.










End EdgebandCostFacts.

(** ** Delivery hours and cost *)

Module DeliveryCostFacts.
Import Num NumFacts NumMore Products DeliveryCost.







End DeliveryCostFacts.

(** ** Finger pull *)

Module FingerPullFacts.
Import Num NumFacts NumMore Text TextMore Products FingerPull.

Lemma digits_int_nonneg (ds : string) : (0 <= digits_int ds)%Z.
Proof. unfold digits_int. apply N2Z.is_nonneg. Qed.

Lemma count_fp_from (ps : list Product) (base_only : bool) (c : Counts) :
  (0 <= doors c)%Z -> (0 <= drawers c)%Z ->
  let step := fun c p =>
    let d := lower (description p) in
    if base_only && negb (startswith "base" d) then c
    else
      {| doors := match search_base_count "door" d with
                  | Some g => (doors c + digits_int g)%Z
                  | None => doors c
                  end;
         drawers := match search_base_count "drawer" d with
                    | Some g => (drawers c + digits_int g)%Z
                    | None => drawers c
                    end |} in
  let r := fold_left step ps c in
  (0 <= doors r)%Z /\ (0 <= drawers r)%Z.
Proof.
  intros Hd Hr step. revert c Hd Hr.
  induction ps as [| p ps IH]; intros c Hd Hr; simpl; [split; assumption |].
  apply IH; unfold step;
    destruct (base_only && negb (startswith "base" (lower (description p))));
    try assumption; simpl;
    destruct (search_base_count _ _); try assumption;
    pose proof (digits_int_nonneg s); lia.
Qed.

(** The finger-pull counts are never negative, whatever is subtracted or
    overridden, and neither is the number of parts charged.  Without parts
    there is no charge at all, the pickup fee included, and no added time;
    with parts the charge is the per-part fee for each plus one pickup
    fee. *)
Theorem finger_pull_charge (ps : list Product) (fp_defaults : Defaults) (fp_ov : Overrides) :
  let r := finger_pull ps fp_defaults fp_ov in
  let fee := get_or (per_part_fee fp_ov) (get (default_per_part_fee fp_defaults) 15.5) 15.5 in
  let pickup := get_or (pickup_fee fp_ov) (get (default_pickup_fee fp_defaults) 35) 35 in
  (forall b, (0 <= doors (count_fp ps b))%Z /\ (0 <= drawers (count_fp ps b))%Z)
  /\ (0 <= doors_count r)%Z /\ (0 <= drawers_count r)%Z /\ (0 <= applied_parts r)%Z
  /\ (applied_parts r = 0%Z ->
      fp_cost r == 0 /\ fp_asm_hours r == 0 /\ fp_inst_hours r == 0)
  /\ ((0 < applied_parts r)%Z ->
      fp_cost r == inject_Z (applied_parts r) * fee + pickup).
Proof.
  intros r fee pickup.
  split.
  { intros b. unfold count_fp. apply (count_fp_from ps b); simpl; lia. }
  unfold r, finger_pull. cbv zeta.
  cbn [doors_count drawers_count applied_parts fp_cost fp_asm_hours fp_inst_hours].
  set (dc := Z.max 0 _). set (rc := Z.max 0 _).
  set (ap := ((if default true (apply_doors fp_ov) then dc else 0)
              + (if default true (apply_drawers fp_ov) then rc else 0))%Z).
  assert (Hdc : (0 <= dc)%Z) by (unfold dc; lia).
  assert (Hrc : (0 <= rc)%Z) by (unfold rc; lia).
  assert (Hap : (0 <= ap)%Z).
  { unfold ap. destruct (default true (apply_doors fp_ov)),
      (default true (apply_drawers fp_ov)); lia. }
  fold fee pickup.
  split; [exact Hdc |]. split; [exact Hrc |]. split; [exact Hap |]. split.
  - intros E. rewrite E. simpl. split; [| split]; field.
  - intros P. apply Z.ltb_lt in P. rewrite P. reflexivity.
Qed.

Lemma counted_edges_nonneg (parts : list Edgeband.Part) :
  (0 <= Edgeband.counted_edges parts)%Z.
Proof.
  induction parts as [| p parts IH]; simpl; [lia |].
  assert (0 < Edgeband.counted_qty p)%Z.
  { unfold Edgeband.counted_qty. destruct (0 <? Edgeband.qty p)%Z eqn:E; [| lia].
    apply Z.ltb_lt in E. exact E. }
  assert (0 <= Edgeband.edged_sides p)%Z by (unfold Edgeband.edged_sides; lia).
  nia.
Qed.

(** The edgeband hours left after the finger-pull edges are taken off are
    never negative; with no finger-pull part and a minutes-per-edge that
    is not negative they are the hours of the parts model unchanged. *)
Theorem edgeband_hours_floor (parts : list Edgeband.Part) (fp_edge_count : Z)
    (cfg : option Q) (eb_hours_parts : Q) :
  0 <= edgeband_hours eb_hours_parts fp_edge_count cfg
  /\ (0 <= Edgeband.minutes_per_edge cfg ->
      edgeband_hours (Edgeband.time_from_parts parts cfg) 0 cfg
      == Edgeband.time_from_parts parts cfg).
Proof.
  split.
  - unfold edgeband_hours. apply round2_nonneg.
    pose proof (fmax_lower 0 (eb_hours_parts
                              - inject_Z fp_edge_count * get_or cfg 1 1 / 60)). lra.
  - intros Hm. unfold edgeband_hours.
    set (t := Edgeband.time_from_parts parts cfg).
    assert (Ht : 0 <= t).
    { unfold t, Edgeband.time_from_parts. apply round2_nonneg.
      assert (E : Edgeband.count_edges parts = Edgeband.counted_edges parts).
      { unfold Edgeband.count_edges. rewrite EdgebandFacts.count_edges_from. lia. }
      rewrite E. pose proof (counted_edges_nonneg parts) as Hc.
      rewrite Zle_Qle in Hc. change (inject_Z 0) with 0 in Hc.
      apply Qle_shift_div_l; [reflexivity |].
      assert (0 <= inject_Z (Edgeband.counted_edges parts) * Edgeband.minutes_per_edge cfg)
        by (apply Qmult_le_0_compat; assumption).
      lra. }
    assert (Hc : is_cents t) by apply is_cents_round2.
    assert (E : fmax 0 (t - inject_Z 0 * get_or cfg 1 1 / 60) == t).
    { assert (X : t - inject_Z 0 * get_or cfg 1 1 / 60 == t) by field.
      unfold fmax. destruct (Qlt_le_dec 0 _); lra. }
    rewrite E. apply round2_cents. exact Hc.
Qed.

End FingerPullFacts.

(** ** The final price and the rendered quote *)

Module FinalPricingFacts.
Import Num NumFacts NumMore FinalPricing.

(** The two cases of [final_pricing]. *)
Lemma final_pricing_cases (totals : Pricing.Totals) (rates : Pricing.Rates)
    (policy : Html.Policy) :
  let sc := surcharge_cost totals policy in
  let base := Pricing.price (with_allowances totals policy) rates (pricing_policy policy) in
  (Qeq_bool sc 0 = true /\
   final_pricing totals rates policy
   = (dict_pop (with_allowances totals policy) "surcharges", base))
  \/ (Qeq_bool sc 0 = false /\
      final_pricing totals rates policy
      = (Html.dict_set (with_allowances totals policy) "surcharges" sc,
         let price_ex_gst := round2 (Pricing.price_ex_gst base + sc) in
         let gst := round2 (price_ex_gst * get (Pricing.taxes_gst rates) 0.10) in
         {| Pricing.subtotal_ex_gst := round2 (Pricing.subtotal_ex_gst base + sc);
            Pricing.price_ex_gst := price_ex_gst;
            Pricing.gst := gst;
            Pricing.total_inc_gst := round2 (price_ex_gst + gst) |})).
Proof.
  intros sc base. unfold final_pricing. cbv zeta.
  fold (with_allowances totals policy). fold (surcharge_cost totals policy). fold sc.
  destruct (Qeq_bool sc 0); [left | right]; split; reflexivity.
Qed.

Lemma final_price_cents (totals : Pricing.Totals) (rates : Pricing.Rates)
    (policy : Html.Policy) :
  is_cents (Pricing.price_ex_gst (snd (final_pricing totals rates policy))).
Proof.
  destruct (final_pricing_cases totals rates policy) as [[_ E] | [_ E]]; rewrite E; simpl.
  - destruct (PricingFacts.price_fields (with_allowances totals policy) rates
                (pricing_policy policy)) as (Hp & _ & _).
    rewrite Hp. apply is_cents_round2.
  - apply is_cents_round2.
Qed.


(** From the totals to the rendered quote: the lines of the price
    breakdown that the client sees add up exactly to the final price
    excluding GST, surcharge included, for every input. *)
Theorem rendered_quote_adds_up (totals : Pricing.Totals) (rates : Pricing.Rates)
    (policy : Html.Policy) :
  Html.displayed_sum (rendered_display totals rates policy)
  == Pricing.price_ex_gst (snd (final_pricing totals rates policy)).
Proof.
  unfold rendered_display.
  pose proof (final_price_cents totals rates policy) as C.
  destruct (final_pricing totals rates policy) as [t s]. cbn [snd] in *.
  apply HtmlFacts.display_sum_exact. exact C.
Qed.

End FinalPricingFacts.

(** ** More on the hardware classification *)

Module HardwareMore.
Import Text HardwareCounts.

Lemma totals_eq (t t' : Totals) :
  (forall b, bucket_total b t = bucket_total b t') -> t = t'.
Proof.
  intros H. destruct t, t'.
  pose proof (H DrawerKits). pose proof (H InnerDrawers). pose proof (H Hinges).
  pose proof (H AdjFeet). pose proof (H Bins). pose proof (H Liftup).
  simpl in *. congruence.
Qed.

Lemma classify_total (b : Bucket) (l : list HardwareLine) :
  bucket_total b (classify_hardware l) = spec_total b l.
Proof.
  unfold classify_hardware. rewrite HardwareFacts.classify_fold. destruct b; reflexivity.
Qed.

Lemma spec_total_cons (b : Bucket) (h : HardwareLine) (l : list HardwareLine) :
  spec_total b (h :: l) = (contribution b h + spec_total b l)%Z.
Proof. reflexivity. Qed.

Lemma spec_total_app (b : Bucket) (l1 l2 : list HardwareLine) :
  spec_total b (l1 ++ l2) = (spec_total b l1 + spec_total b l2)%Z.
Proof.
  induction l1 as [| h l1 IH]; [reflexivity |].
  rewrite <- app_comm_cons, !spec_total_cons, IH. lia.
Qed.

Lemma spec_total_perm (b : Bucket) (l l' : list HardwareLine) :
  Permutation l l' -> spec_total b l = spec_total b l'.
Proof.
  induction 1 as [| h l l' _ IH | h1 h2 l | l l' l'' _ IH1 _ IH2];
    rewrite ?spec_total_cons; lia.
Qed.

(** The classification does not depend on the order of the hardware
    lines. *)
Theorem classify_order_irrelevant (l l' : list HardwareLine) :
  Permutation l l' -> classify_hardware l = classify_hardware l'.
Proof.
  intros P. apply totals_eq. intros b.
  rewrite !classify_total. apply spec_total_perm. exact P.
Qed.

Lemma classify_order_irrelevant_witness :
  classify_hardware [ {| description := "Hinge 110"; qty := 4 |};
                      {| description := "Adj Leg 150"; qty := 6 |} ]
  = classify_hardware [ {| description := "Adj Leg 150"; qty := 6 |};
                        {| description := "Hinge 110"; qty := 4 |} ].
Proof. apply classify_order_irrelevant. apply perm_swap. Defined.

(** The sum of the six buckets. *)
Lemma contribution_all (h : HardwareLine) :
  (contribution DrawerKits h + contribution InnerDrawers h + contribution Hinges h
   + contribution AdjFeet h + contribution Bins h + contribution Liftup h)%Z
  = match spec_bucket h with Some _ => qty h | None => 0%Z end.
Proof.
  unfold contribution. destruct (spec_bucket h) as [[] |]; simpl; lia.
Qed.

Lemma contribution_nonneg (b : Bucket) (h : HardwareLine) :
  (0 <= qty h)%Z -> (0 <= contribution b h <= qty h)%Z.
Proof.
  intros H. unfold contribution.
  destruct (spec_bucket h) as [c |]; [destruct (bucket_eqb c b) |]; lia.
Qed.

Lemma spec_total_nonneg (b : Bucket) (l : list HardwareLine) :
  Forall (fun h => (0 <= qty h)%Z) l -> (0 <= spec_total b l)%Z.
Proof.
  induction 1 as [| h l Hh _ IH]; [simpl; lia |].
  rewrite spec_total_cons. pose proof (contribution_nonneg b h Hh). lia.
Qed.

Lemma spec_total_all (l : list HardwareLine) :
  Forall (fun h => (0 <= qty h)%Z) l ->
  (spec_total DrawerKits l + spec_total InnerDrawers l + spec_total Hinges l
   + spec_total AdjFeet l + spec_total Bins l + spec_total Liftup l
   <= fold_right (fun h acc => qty h + acc) 0 l)%Z.
Proof.
  induction 1 as [| h l Hh _ IH]; [simpl; lia |].
  rewrite !spec_total_cons. cbn [fold_right].
  pose proof (contribution_all h) as A.
  destruct (spec_bucket h); lia.
Qed.

(** Two bills classified together give the sum of their classifications,
    bucket by bucket; and when no quantity is negative, no bucket is
    negative and the six buckets together never exceed the quantity of
    the whole bill. *)
Theorem classify_additive (l1 l2 : list HardwareLine) :
  (forall b, bucket_total b (classify_hardware (l1 ++ l2))
             = (bucket_total b (classify_hardware l1)
                + bucket_total b (classify_hardware l2))%Z)
  /\ (Forall (fun h => (0 <= qty h)%Z) l1 ->
      let t := classify_hardware l1 in
      (forall b, (0 <= bucket_total b t)%Z)
      /\ (drawer_kits t + inner_drawers t + hinges t + adj_feet t + bins t + liftup t
          <= fold_right (fun h acc => qty h + acc) 0 l1)%Z).
Proof.
  split.
  - intros b. rewrite !classify_total. apply spec_total_app.
  - intros H t.
    pose proof (fun b => spec_total_nonneg b l1 H) as N.
    split.
    + intros b. unfold t. rewrite classify_total. apply N.
    + change (drawer_kits t) with (bucket_total DrawerKits t).
      change (inner_drawers t) with (bucket_total InnerDrawers t).
      change (hinges t) with (bucket_total Hinges t).
      change (adj_feet t) with (bucket_total AdjFeet t).
      change (bins t) with (bucket_total Bins t).
      change (liftup t) with (bucket_total Liftup t).
      unfold t. rewrite !classify_total. apply spec_total_all. exact H.
Qed.

End HardwareMore.

(** ** More on the inferred counts and the scale factors *)

Module ProductMore.
Import Num NumFacts NumMore Text Products.

Lemma span_append (p : ascii -> bool) (s : string) :
  s = (fst (span p s) ++ snd (span p s))%string.
Proof.
  induction s as [| c t IH]; simpl; [reflexivity |].
  destruct (p c); [| reflexivity].
  destruct (span p t) as [a b]. simpl in *. rewrite IH at 1. reflexivity.
Qed.

Lemma contains_prefix (kw s : string) : String.prefix kw s = true -> contains kw s = true.
Proof. intros H. destruct s; cbn [contains]; rewrite H; reflexivity. Qed.

Lemma contains_append_r (kw a b : string) :
  contains kw b = true -> contains kw (a ++ b) = true.
Proof.
  intros H. induction a as [| c a IH]; simpl; [exact H |].
  rewrite IH. apply orb_true_r.
Qed.

Lemma match_count_at_contains (kw s ds : string) :
  match_count_at kw s = Some ds -> contains kw s = true /\ ds <> EmptyString.
Proof.
  unfold match_count_at.
  pose proof (span_append is_digit s) as E1.
  destruct (span is_digit s) as [d r]. simpl in E1.
  destruct d as [| c d]; [discriminate |].
  pose proof (span_append is_space r) as E2.
  destruct (span is_space r) as [sp r']. simpl in E2.
  destruct (String.prefix kw r') eqn:P; [| discriminate].
  intros H. injection H as <-. split; [| discriminate].
  rewrite E1, E2. apply contains_append_r, contains_append_r, contains_prefix. exact P.
Qed.

(** A count is only found where the keyword occurs. *)
Lemma search_count_contains (kw s ds : string) :
  search_count kw s = Some ds -> contains kw s = true /\ ds <> EmptyString.
Proof.
  induction s as [| c t IH]; cbn [search_count].
  - destruct (match_count_at kw "") as [x |] eqn:M; [| discriminate].
    intros H. injection H as <-. apply (match_count_at_contains kw "" x M).
  - destruct (match_count_at kw (String c t)) as [x |] eqn:M.
    + intros H. injection H as <-.
      apply (match_count_at_contains kw (String c t) x M).
    + intros H. destruct (IH H) as [A B]. split; [| exact B].
      cbn [contains]. rewrite A. apply orb_true_r.
Qed.

Lemma digits_value_nonneg (ds : string) : 0 <= digits_value ds.
Proof.
  unfold digits_value. change 0 with (inject_Z 0). rewrite <- Zle_Qle.
  apply N2Z.is_nonneg.
Qed.

(** The inferred counts are never negative; a number written before
    "door" or before "inner drawer" is always the count taken, the test for
    the bare word never hiding it; and without a number the word alone
    counts as one. *)
Theorem inferred_counts_sound (desc : string) (depth : Q) :
  let c := infer_counts desc depth in
  let d := lower desc in
  (0 <= drawers c /\ 0 <= inner_drawers c /\ 0 <= doors c /\ 0 <= feet c /\ 0 <= bins c)
  /\ (forall g, search_count "door" d = Some g -> doors c = digits_value g)
  /\ (forall g, search_count "inner drawer" d = Some g -> inner_drawers c = digits_value g)
  /\ (search_count "door" d = None -> contains "door" d = true -> doors c = 1)
  /\ (contains "door" d = false -> doors c = 0).
Proof.
  intros c d. unfold c, infer_counts. fold d. cbv zeta.
  cbn [drawers inner_drawers doors feet bins].
  split; [| split; [| split; [| split]]].
  - repeat split.
    + destruct (search_count "drawer" d); [apply digits_value_nonneg | lra].
    + destruct (contains "inner drawer" d); [| lra].
      destruct (search_count "inner drawer" d); [apply digits_value_nonneg | lra].
    + destruct (contains "door" d); [| lra].
      destruct (search_count "door" d); [apply digits_value_nonneg | lra].
    + destruct (negb (Qeq_bool depth 0) && Qle_bool 500 depth); lra.
    + destruct (contains "bin" d); lra.
  - intros g H. destruct (search_count_contains _ _ _ H) as [C _].
    rewrite C, H. reflexivity.
  - intros g H. destruct (search_count_contains _ _ _ H) as [C _].
    rewrite C, H. reflexivity.
  - intros H C. rewrite C, H. reflexivity.
  - intros C. rewrite C. reflexivity.
Qed.

Lemma infer_all_snoc (h : Q) (ps : list Product) (p : Product) :
  infer_all h (ps ++ [p])
  = (add_counts (fst (infer_all h ps)) (counts_of h p),
     <[item p := counts_of h p]> (snd (infer_all h ps))).
Proof.
  unfold infer_all. rewrite fold_left_app. simpl.
  destruct (fold_left _ ps _) as [pt pc]. reflexivity.
Qed.

Lemma predicted_totals_sum (h : Q) (ps : list Product) :
  let pt := fst (infer_all h ps) in
  k_drawers pt == qsum (map (fun p => drawers (counts_of h p)) ps)
  /\ k_inner_drawers pt == qsum (map (fun p => inner_drawers (counts_of h p)) ps)
  /\ k_hinges pt == qsum (map (fun p => hinges (counts_of h p)) ps)
  /\ k_feet pt == qsum (map (fun p => feet (counts_of h p)) ps)
  /\ k_bins pt == qsum (map (fun p => bins (counts_of h p)) ps).
Proof.
  induction ps as [| p ps IH] using rev_ind.
  - simpl. repeat split; reflexivity.
  - destruct IH as (A & B & C & D & E).
    rewrite infer_all_snoc. cbn [fst]. unfold add_counts.
    cbn [k_drawers k_inner_drawers k_hinges k_feet k_bins].
    rewrite !map_app, !qsum_app. cbn [map]. rewrite !qsum_cons, !qsum_nil.
    rewrite A, B, C, D, E. repeat split; ring.
Qed.

Lemma qsum_scale {A : Type} (f : A -> Q) (c : Q) (l : list A) :
  qsum (map (fun x => f x * c) l) == qsum (map f l) * c.
Proof.
  induction l as [| x l IH]; cbn [map].
  - rewrite !qsum_nil. ring.
  - rewrite !qsum_cons, IH. ring.
Qed.

Lemma scale_reconciles (n : Z) (x : Q) :
  0 < inject_Z n -> 0 < x ->
  x * scale_for (or_else (inject_Z n) 0) (or_else x 0) == inject_Z n.
Proof.
  intros Hn Hx.
  rewrite (ProductFacts.scale_for_comp _ (inject_Z n) _ x (or_else_0 _) (or_else_0 _)).
  destruct (ProductFacts.scale_for_spec (inject_Z n) x) as [[S _] _].
  rewrite (S (conj Hn Hx)). field. lra.
Qed.

(** What the scaling is for: whenever a category has a positive
    classified total and a positive predicted total, the per-product
    counts times the scale factor add up, over the products, to the
    classified total. *)
Theorem scaled_counts_meet_the_tally (hw_totals : HardwareCounts.Totals) (h : Q)
    (ps : list Product) :
  let pt := fst (infer_all h ps) in
  let s := compute_scales hw_totals pt in
  let scaled (f : Counts -> Q) (k : Q) := qsum (map (fun p => f (counts_of h p) * k) ps) in
  (0 < inject_Z (HardwareCounts.drawer_kits hw_totals) -> 0 < k_drawers pt ->
   scaled drawers (k_drawers s) == inject_Z (HardwareCounts.drawer_kits hw_totals))
  /\ (0 < inject_Z (HardwareCounts.inner_drawers hw_totals) -> 0 < k_inner_drawers pt ->
      scaled inner_drawers (k_inner_drawers s)
      == inject_Z (HardwareCounts.inner_drawers hw_totals))
  /\ (0 < inject_Z (HardwareCounts.hinges hw_totals) -> 0 < k_hinges pt ->
      scaled hinges (k_hinges s) == inject_Z (HardwareCounts.hinges hw_totals))
  /\ (0 < inject_Z (HardwareCounts.adj_feet hw_totals) -> 0 < k_feet pt ->
      scaled feet (k_feet s) == inject_Z (HardwareCounts.adj_feet hw_totals))
  /\ (0 < inject_Z (HardwareCounts.bins hw_totals) -> 0 < k_bins pt ->
      scaled bins (k_bins s) == inject_Z (HardwareCounts.bins hw_totals)).
Proof.
  intros pt s scaled.
  destruct (predicted_totals_sum h ps) as (A & B & C & D & E). fold pt in A, B, C, D, E.
  unfold scaled, s, compute_scales.
  cbn [k_drawers k_inner_drawers k_hinges k_feet k_bins].
  repeat split; intros Hn Hx; rewrite qsum_scale.
  - rewrite <- A. apply scale_reconciles; assumption.
  - rewrite <- B. apply scale_reconciles; assumption.
  - rewrite <- C. apply scale_reconciles; assumption.
  - rewrite <- D. apply scale_reconciles; assumption.
  - rewrite <- E. apply scale_reconciles; assumption.
Qed.

Lemma perprod_lookup (h : Q) (ps : list Product) (id : string) :
  snd (infer_all h ps) !! id
  = counts_of h <$> last (List.filter (fun p => String.eqb (item p) id) ps).
Proof.
  induction ps as [| p ps IH] using rev_ind.
  - reflexivity.
  - rewrite infer_all_snoc. cbn [snd]. rewrite List.filter_app. cbn [List.filter].
    destruct (String.eqb (item p) id) eqn:E.
    + apply String.eqb_eq in E. subst id. rewrite lookup_insert_eq, last_snoc. reflexivity.
    + apply String.eqb_neq in E. rewrite lookup_insert_ne by exact E.
      rewrite app_nil_r. exact IH.
Qed.

(** The counts stored per item id read back as the counts of the last
    product with that id; when the item ids are all different every
    product reads back its own counts, and an id that no product has
    reads back nothing. *)
Theorem perprod_counts_read_back (h : Q) (ps : list Product) :
  (forall id, snd (infer_all h ps) !! id
              = counts_of h <$> last (List.filter (fun p => String.eqb (item p) id) ps))
  /\ (NoDup (map item ps) ->
      forall p, In p ps -> snd (infer_all h ps) !! item p = Some (counts_of h p))
  /\ (forall id, ~ In id (map item ps) -> snd (infer_all h ps) !! id = None).
Proof.
  split; [apply perprod_lookup |]. split.
  - intros ND p Hin. rewrite perprod_lookup.
    assert (F : List.filter (fun q => String.eqb (item q) (item p)) ps = [p]).
    { clear h. induction ps as [| q ps IH]; [destruct Hin |].
      simpl in ND. apply NoDup_cons in ND. destruct ND as [Nq ND].
      simpl. destruct Hin as [-> | Hin].
      - rewrite String.eqb_refl. f_equal.
        clear IH ND. induction ps as [| r ps IH]; [reflexivity |].
        simpl. destruct (String.eqb (item r) (item p)) eqn:E.
        + apply String.eqb_eq in E. exfalso. apply Nq. rewrite <- E.
          apply list_elem_of_In. left. reflexivity.
        + apply IH. intros Hc. apply Nq. apply list_elem_of_In. right.
          apply list_elem_of_In. exact Hc.
      - destruct (String.eqb (item q) (item p)) eqn:E.
        + apply String.eqb_eq in E. exfalso. apply Nq. rewrite E.
          apply list_elem_of_In, in_map. exact Hin.
        + apply IH; assumption. }
    rewrite F. reflexivity.
  - intros id Hn. rewrite perprod_lookup.
    assert (F : List.filter (fun q => String.eqb (item q) id) ps = []).
    { clear h. induction ps as [| q ps IH]; [reflexivity |].
      simpl. destruct (String.eqb (item q) id) eqn:E.
      - apply String.eqb_eq in E. exfalso. apply Hn. left. exact E.
      - apply IH. intros Hc. apply Hn. right. exact Hc. }
    rewrite F. reflexivity.
Qed.

End ProductMore.

(** ** The per-product breakdowns of the assembly and install estimates *)

Module BreakdownFacts.
Import Num NumFacts NumMore Text Products.

Lemma round_half_even_error (x : Q) :
  x - (1 # 2) <= inject_Z (round_half_even x) <= x + (1 # 2).
Proof.
  unfold round_half_even.
  pose proof (Qfloor_le x) as Lo. pose proof (Qlt_floor x) as Hi.
  rewrite inject_Z_plus in Hi. change (inject_Z 1) with 1 in Hi.
  destruct (Qcompare (x - inject_Z (Qfloor x)) (1 # 2)) eqn:C.
  - apply Qeq_alt in C.
    destruct (Z.even (Qfloor x)); [| rewrite inject_Z_plus; change (inject_Z 1) with 1];
      split; lra.
  - apply Qlt_alt in C. split; lra.
  - apply Qgt_alt in C. rewrite inject_Z_plus. change (inject_Z 1) with 1. split; lra.
Qed.

(** Rounding to cents moves a value by at most half a cent. *)
Lemma round2_error (x : Q) : x - (1 # 200) <= round2 x <= x + (1 # 200).
Proof.
  unfold round2. destruct (round_half_even_error (x * 100)) as [Lo Hi].
  set (z := inject_Z (round_half_even (x * 100))) in *.
  unfold Qdiv. change (/ 100) with (1 # 100). split; lra.
Qed.

Section Rows.
Variable ph : Product -> Z * Q.

Lemma loop_rows (ps : list Product) (t0 : Q) (rows0 : list ProductHours) :
  let done :=
    fold_left
      (fun '(total, rows) p =>
         let '(qty, hours) := ph p in
         (total + hours,
          rows ++ [ {| ph_product := p; ph_qty := qty; ph_hours := round2 hours |} ]))
      ps (t0, rows0) in
  fst done == t0 + qsum (map (fun p => snd (ph p)) ps)
  /\ snd done
     = rows0 ++ map (fun p => {| ph_product := p; ph_qty := fst (ph p);
                                 ph_hours := round2 (snd (ph p)) |}) ps.
Proof.
  cbv zeta. revert t0 rows0. induction ps as [| p ps IH]; intros t0 rows0.
  - simpl. rewrite qsum_nil, app_nil_r. split; [ring | reflexivity].
  - cbn [fold_left map].
    destruct (IH (t0 + snd (ph p))
                 (rows0 ++ [ {| ph_product := p; ph_qty := fst (ph p);
                                ph_hours := round2 (snd (ph p)) |} ])) as [A B].
    destruct (ph p) as [q h] eqn:E. cbn [fst snd] in *.
    rewrite A, B, qsum_cons, <- app_assoc. split; [ring | reflexivity].
Qed.

Lemma rows_sum_error (ps : list Product) :
  let total := qsum (map (fun p => snd (ph p)) ps) in
  let shown :=
    qsum (map ph_hours
            (map (fun p => {| ph_product := p; ph_qty := fst (ph p);
                              ph_hours := round2 (snd (ph p)) |}) ps)) in
  let n := inject_Z (Z.of_nat (length ps)) in
  total - n * (1 # 200) <= shown <= total + n * (1 # 200).
Proof.
  induction ps as [| p ps IH]; cbv zeta in *.
  - cbn [map length]. rewrite !qsum_nil. change (inject_Z (Z.of_nat 0)) with 0. split; lra.
  - cbn [map length]. rewrite !qsum_cons. rewrite Nat2Z.inj_succ.
    unfold Z.succ. rewrite inject_Z_plus. change (inject_Z 1) with 1.
    cbn beta. cbn [ph_hours].
    destruct (round2_error (snd (ph p))) as [Lo Hi].
    destruct IH as [L H]. split; lra.
Qed.

End Rows.

End BreakdownFacts.

(** ** calculators/assembly.py: the result of [estimate] *)

Module AssemblyFacts.
Import Num NumFacts NumMore Text Products BreakdownFacts.

(** The per-product hours [estimate] works with, before rounding. *)
Lemma assembly_fields (pd : ProductsData) (rules : Assembly.Rules) (rates : Assembly.Rates)
    (pov : gmap string ProductOverride) :
  exists (pc : gmap string Counts) (sc : PerKey),
    let ph := Assembly.product_hours rates rules pov pc sc in
    let r := Assembly.estimate pd rules rates pov in
    let total := qsum (map (fun p => snd (ph p)) (products pd)) in
    Assembly.per_product r
    = map (fun p => {| ph_product := p; ph_qty := fst (ph p);
                       ph_hours := round2 (snd (ph p)) |}) (products pd)
    /\ Assembly.hours r == round2 total
    /\ Assembly.cost r == round2 (total * get (Assembly.labor_shop rates) 150).
Proof.
  unfold Assembly.estimate.
  destruct (infer_all _ (products pd)) as [pt pc].
  set (sc := compute_scales _ pt).
  exists pc, sc. cbv zeta.
  destruct (loop_rows (Assembly.product_hours rates rules pov pc sc) (products pd) 0 [])
    as [A B].
  destruct (fold_left _ (products pd) (0, [])) as [t rows].
  cbn [fst snd] in A, B. cbn [Assembly.per_product Assembly.hours Assembly.cost].
  split; [exact B |]. rewrite A. split; apply round2_comp; ring.
Qed.

Lemma product_hours_qty (rates : Assembly.Rates) (rules : Assembly.Rules)
    (pov : gmap string ProductOverride) (pc : gmap string Counts) (sc : PerKey)
    (p : Product) :
  fst (Assembly.product_hours rates rules pov pc sc p) = Z.max 1 (qty p).
Proof. reflexivity. Qed.

Lemma assembly_hours_excluded (rates : Assembly.Rates) (rules : Assembly.Rules)
    (pov : gmap string ProductOverride) (pc : gmap string Counts) (sc : PerKey)
    (p : Product) :
  exclude (override_of pov (item p)) = true ->
  snd (Assembly.product_hours rates rules pov pc sc p) = 0.
Proof. intros H. unfold Assembly.product_hours. cbn [snd]. rewrite H. reflexivity. Qed.

(** The assembly breakdown has one row per product, in the order of the
    products; each row carries a quantity of at least one (a missing or
    non-positive quantity counts as one); an excluded product is listed with
    zero hours; and since the total is rounded once while every row is
    rounded on its own, the rows shown add up to the total only up to half
    a cent per row and half a cent for the total. *)
Theorem assembly_breakdown (pd : ProductsData) (rules : Assembly.Rules)
    (rates : Assembly.Rates) (pov : gmap string ProductOverride) :
  let r := Assembly.estimate pd rules rates pov in
  let rows := Assembly.per_product r in
  let slack := (inject_Z (Z.of_nat (length (products pd))) + 1) * (1 # 200) in
  map ph_product rows = products pd
  /\ Forall (fun x => ph_qty x = Z.max 1 (qty (ph_product x)) /\ (1 <= ph_qty x)%Z) rows
  /\ Forall (fun x => exclude (override_of pov (item (ph_product x))) = true ->
                      ph_hours x == 0) rows
  /\ Assembly.hours r - slack <= qsum (map ph_hours rows) <= Assembly.hours r + slack.
Proof.
  intros r rows slack.
  destruct (assembly_fields pd rules rates pov) as (pc & sc & E & H & _).
  cbv zeta in E, H. fold r in E, H. fold rows in E.
  set (ph := Assembly.product_hours rates rules pov pc sc) in *.
  split; [| split; [| split]].
  - rewrite E, map_map. cbn [ph_product]. apply map_id.
  - rewrite E. apply List.Forall_map, List.Forall_forall. intros p _.
    cbn [ph_qty ph_product]. unfold ph. rewrite product_hours_qty. split; lia.
  - rewrite E. apply List.Forall_map, List.Forall_forall. intros p _ X.
    cbn [ph_hours ph_product] in *. unfold ph.
    rewrite (assembly_hours_excluded rates rules pov pc sc p X). reflexivity.
  - rewrite E.
    pose proof (rows_sum_error ph (products pd)) as S. cbv zeta in S.
    destruct (round2_error (qsum (map (fun p => snd (ph p)) (products pd)))) as [Lo Hi].
    rewrite <- H in Lo, Hi. unfold slack.
    set (n := inject_Z (Z.of_nat (length (products pd)))) in *.
    destruct S as [S1 S2]. split; lra.
Qed.

(** When every product is excluded the assembly estimate is zero hours
    at zero cost. *)
Theorem assembly_all_excluded (pd : ProductsData) (rules : Assembly.Rules)
    (rates : Assembly.Rates) (pov : gmap string ProductOverride) :
  (forall p, In p (products pd) -> exclude (override_of pov (item p)) = true) ->
  let r := Assembly.estimate pd rules rates pov in
  Assembly.hours r == 0 /\ Assembly.cost r == 0.
Proof.
  intros X r.
  destruct (assembly_fields pd rules rates pov) as (pc & sc & _ & H & C).
  cbv zeta in H, C. fold r in H, C.
  assert (Z0 : qsum (map (fun p => snd (Assembly.product_hours rates rules pov pc sc p))
                         (products pd)) == 0).
  { clear H C r. induction (products pd) as [| p l IH]; cbn [map].
    - apply qsum_nil.
    - rewrite qsum_cons, IH by (intros q Hq; apply X; right; exact Hq).
      rewrite (assembly_hours_excluded rates rules pov pc sc p (X p (or_introl eq_refl))).
      ring. }
  rewrite H, C. split; apply round2_zero; rewrite Z0; ring.
Qed.

Lemma assembly_all_excluded_witness :
  let p := {| item := "A1"; room := "Kitchen"; description := "Base unit 2 door";
              qty := 2; width_mm := 600; height_mm := 720; depth_mm := 560;
              area_m2 := 0.432 |} in
  let pov : gmap string ProductOverride := {[ "A1"%string := {| exclude := true; complexity := None |} ]} in
  let rules := {| Assembly.adder_drawer := None; Assembly.adder_inner_drawer := None;
                  Assembly.adder_hinge := None; Assembly.adder_foot := None;
                  Assembly.adder_bin := None; Assembly.hinges_per_door := None;
                  Assembly.complexity_map := [] |} in
  let rates := {| Assembly.labor_shop := None; Assembly.base_minutes_per_m2 := None;
                  Assembly.min_minutes_per_product := None;
                  Assembly.setout_minutes_per_product := None |} in
  let r := Assembly.estimate {| products := [p]; hardware := [] |} rules rates pov in
  Assembly.hours r == 0 /\ Assembly.cost r == 0.
Proof.
  intros p pov rules rates.
  apply (assembly_all_excluded {| products := [p]; hardware := [] |} rules rates pov).
  intros q [<- | []]. vm_compute. reflexivity.
Defined.

End AssemblyFacts.

(** ** calculators/install.py: the crew split and the measured path *)

Module InstallMore.
Import Num NumFacts NumMore Text Products BreakdownFacts.

Lemma fmax_cases (a b : Q) : (a < b /\ fmax a b = b) \/ (b <= a /\ fmax a b = a).
Proof. unfold fmax. destruct (Qlt_le_dec a b); [left | right]; split; auto. Qed.

(** However the two crew fractions are configured, the fractions used
    add up to one; fractions that do not sum to a positive number give a
    pure two-person crew.  When both configured fractions are
    non-negative, each fraction used lies between 0 and 1, the person-hour
    divisor [2 * f2 + f1] lies between 1 and 2, and the blended rate lies
    between the one-person and the two-person rate. *)
Theorem crew_split_normalised (rates : Install.Rates) :
  let f2 := fst (Install.crew_fractions rates) in
  let f1 := snd (Install.crew_fractions rates) in
  let c2 := get_or (Install.two_person_fraction rates) 0.8 0 in
  let c1 := get_or (Install.one_person_fraction rates) 0.2 0 in
  let r2 := fst (Install.crew_rates rates) in
  let r1 := snd (Install.crew_rates rates) in
  f2 + f1 == 1
  /\ (c2 + c1 <= 0 -> f2 == 1 /\ f1 == 0)
  /\ (0 <= c2 -> 0 <= c1 ->
      0 <= f2 <= 1 /\ 0 <= f1 <= 1
      /\ 1 <= f2 * 2 + f1 * 1 <= 2
      /\ (r1 <= r2 -> r1 <= Install.blended rates <= r2)
      /\ (r2 <= r1 -> r2 <= Install.blended rates <= r1)).
Proof.
  intros f2 f1 c2 c1 r2 r1.
  assert (F : (c2 + c1 <= 0 /\ f2 = 1 /\ f1 = 0)
              \/ (0 < c2 + c1 /\ f2 = c2 / (c2 + c1) /\ f1 = c1 / (c2 + c1))).
  { unfold f2, f1, Install.crew_fractions. fold c2 c1.
    destruct (fmax_cases (c2 + c1) 0) as [[L ->] | [G ->]].
    - left. split; [lra |]. split; reflexivity.
    - destruct (Qle_bool (c2 + c1) 0) eqn:E.
      + apply Qle_bool_iff in E. left. split; [exact E |]. split; reflexivity.
      + right. split; [| split; reflexivity].
        destruct (Qlt_le_dec 0 (c2 + c1)) as [P | N]; [exact P |].
        apply Qle_bool_iff in N. congruence. }
  assert (B : Install.blended rates == f2 * r2 + f1 * r1).
  { unfold Install.blended, f2, f1, r2, r1.
    destruct (Install.crew_fractions rates), (Install.crew_rates rates). reflexivity. }
  assert (S : f2 + f1 == 1).
  { destruct F as [(_ & -> & ->) | (P & -> & ->)]; [reflexivity | field; lra]. }
  split; [exact S |]. split.
  - intros N. destruct F as [(_ & -> & ->) | (P & _)]; [split; reflexivity | lra].
  - intros H2 H1.
    assert (P2 : 0 <= f2).
    { destruct F as [(_ & -> & _) | (P & -> & _)]; [lra |].
      apply Qle_shift_div_l; lra. }
    assert (P1 : 0 <= f1).
    { destruct F as [(_ & _ & ->) | (P & _ & ->)]; [lra |].
      apply Qle_shift_div_l; lra. }
    split; [lra |]. split; [lra |]. split; [lra |].
    rewrite B. split; intros R; split; nra.
Qed.

(** The measured path: without a positive override, the per-product
    hours, before rounding, behind every figure of the result. *)
Lemma install_fields (pd : ProductsData) (rates : Install.Rates) (rules : Install.Rules)
    (pov : gmap string ProductOverride) :
  is_pos (get_or (Install.defaults_install_hours rates) 0 0) = false ->
  exists (pc : gmap string Counts) (sc : PerKey),
    let ph := Install.product_hours rates rules pov pc sc in
    let r := Install.estimate pd rates rules pov in
    let total := qsum (map (fun p => snd (ph p)) (products pd)) in
    let f2 := fst (Install.crew_fractions rates) in
    let f1 := snd (Install.crew_fractions rates) in
    let site := total / fmax (f2 * 2 + f1 * 1) 0.0001 in
    Install.per_product r
    = map (fun p => {| ph_product := p; ph_qty := fst (ph p);
                       ph_hours := round2 (snd (ph p)) |}) (products pd)
    /\ Install.person_hours r == round2 total
    /\ Install.hours r == round2 site
    /\ Install.cost r == round2 (site * Install.blended rates).
Proof.
  intros H. unfold Install.estimate, Install.blended.
  destruct (Install.crew_fractions rates) as [f2 f1].
  destruct (Install.crew_rates rates) as [r2 r1].
  rewrite H.
  destruct (infer_all _ (products pd)) as [pt pc].
  set (sc := compute_scales _ pt).
  exists pc, sc. cbv zeta.
  destruct (loop_rows (Install.product_hours rates rules pov pc sc) (products pd) 0 [])
    as [A B].
  destruct (fold_left _ (products pd) (0, [])) as [t rows].
  cbn [fst snd] in A, B |- *.
  cbn [Install.per_product Install.hours Install.cost Install.person_hours].
  assert (T : t == qsum (map (fun p => snd (Install.product_hours rates rules pov pc sc p))
                             (products pd))) by (rewrite A; ring).
  split; [exact B |]. rewrite T. split; [reflexivity |]. split; reflexivity.
Qed.

Lemma install_hours_excluded (rates : Install.Rates) (rules : Install.Rules)
    (pov : gmap string ProductOverride) (pc : gmap string Counts) (sc : PerKey)
    (p : Product) :
  exclude (override_of pov (item p)) = true ->
  snd (Install.product_hours rates rules pov pc sc p) = 0.
Proof. intros H. unfold Install.product_hours. cbn [snd]. rewrite H. reflexivity. Qed.

(** Without a positive override the install breakdown has one row per
    product, in order, each with a quantity of at least one; an excluded
    product is listed with zero hours; and the person-hours returned agree
    with the rows shown up to half a cent per row and half a cent for the
    total. *)
Theorem install_breakdown (pd : ProductsData) (rates : Install.Rates)
    (rules : Install.Rules) (pov : gmap string ProductOverride) :
  get_or (Install.defaults_install_hours rates) 0 0 <= 0 ->
  let r := Install.estimate pd rates rules pov in
  let rows := Install.per_product r in
  let slack := (inject_Z (Z.of_nat (length (products pd))) + 1) * (1 # 200) in
  map ph_product rows = products pd
  /\ Forall (fun x => ph_qty x = Z.max 1 (qty (ph_product x)) /\ (1 <= ph_qty x)%Z) rows
  /\ Forall (fun x => exclude (override_of pov (item (ph_product x))) = true ->
                      ph_hours x == 0) rows
  /\ Install.person_hours r - slack <= qsum (map ph_hours rows)
     <= Install.person_hours r + slack.
Proof.
  intros Hov r rows slack.
  assert (Hp : is_pos (get_or (Install.defaults_install_hours rates) 0 0) = false).
  { destruct (is_pos _) eqn:E; [| reflexivity]. apply is_pos_spec in E. lra. }
  destruct (install_fields pd rates rules pov Hp) as (pc & sc & E & H & _).
  cbv zeta in E, H. fold r in E, H. fold rows in E.
  set (ph := Install.product_hours rates rules pov pc sc) in *.
  split; [| split; [| split]].
  - rewrite E, map_map. cbn [ph_product]. apply map_id.
  - rewrite E. apply List.Forall_map, List.Forall_forall. intros p _.
    cbn [ph_qty ph_product]. unfold ph, Install.product_hours. cbn [fst]. split; lia.
  - rewrite E. apply List.Forall_map, List.Forall_forall. intros p _ X.
    cbn [ph_hours ph_product] in *. unfold ph.
    rewrite (install_hours_excluded rates rules pov pc sc p X). reflexivity.
  - rewrite E.
    pose proof (rows_sum_error ph (products pd)) as S. cbv zeta in S.
    destruct (round2_error (qsum (map (fun p => snd (ph p)) (products pd)))) as [Lo Hi].
    rewrite <- H in Lo, Hi. unfold slack.
    set (n := inject_Z (Z.of_nat (length (products pd)))) in *.
    destruct S as [S1 S2]. split; lra.
Qed.

(** When every product is excluded and no override is set, the install
    estimate is zero hours, zero person-hours and zero cost. *)
Theorem install_all_excluded (pd : ProductsData) (rates : Install.Rates)
    (rules : Install.Rules) (pov : gmap string ProductOverride) :
  get_or (Install.defaults_install_hours rates) 0 0 <= 0 ->
  (forall p, In p (products pd) -> exclude (override_of pov (item p)) = true) ->
  let r := Install.estimate pd rates rules pov in
  Install.hours r == 0 /\ Install.person_hours r == 0 /\ Install.cost r == 0.
Proof.
  intros Hov X r.
  assert (Hp : is_pos (get_or (Install.defaults_install_hours rates) 0 0) = false).
  { destruct (is_pos _) eqn:E; [| reflexivity]. apply is_pos_spec in E. lra. }
  destruct (install_fields pd rates rules pov Hp) as (pc & sc & _ & P & H & C).
  cbv zeta in P, H, C. fold r in P, H, C.
  assert (Z0 : qsum (map (fun p => snd (Install.product_hours rates rules pov pc sc p))
                         (products pd)) == 0).
  { clear P H C r. induction (products pd) as [| p l IH]; cbn [map].
    - apply qsum_nil.
    - rewrite qsum_cons, IH by (intros q Hq; apply X; right; exact Hq).
      rewrite (install_hours_excluded rates rules pov pc sc p (X p (or_introl eq_refl))).
      ring. }
  pose proof (fmax_lower (fst (Install.crew_fractions rates) * 2
                          + snd (Install.crew_fractions rates) * 1) 0.0001) as [L _].
  rewrite H, P, C. split; [| split]; apply round2_zero; rewrite Z0.
  - field. lra.
  - reflexivity.
  - field. lra.
Qed.

Lemma install_breakdown_witness :
  let p := {| item := "A1"; room := "Kitchen"; description := "Base unit 2 door";
              qty := 2; width_mm := 600; height_mm := 720; depth_mm := 560;
              area_m2 := 0.432 |} in
  let rates := {| Install.defaults_install_hours := None;
                  Install.two_person_fraction := None;
                  Install.one_person_fraction := None;
                  Install.two_person_rate := None;
                  Install.one_person_rate := None;
                  Install.labor_installer_billed := None;
                  Install.base_minutes_per_m2 := None;
                  Install.min_minutes_per_product := None |} in
  let r := Install.estimate {| products := [p]; hardware := [] |} rates Install.no_rules ∅ in
  map ph_product (Install.per_product r) = [p].
Proof.
  intros p rates r.
  assert (H : get_or (Install.defaults_install_hours rates) 0 0 <= 0)
    by (vm_compute; discriminate).
  exact (proj1 (install_breakdown {| products := [p]; hardware := [] |} rates
                  Install.no_rules ∅ H)).
Defined.

Lemma install_all_excluded_witness :
  let p := {| item := "A1"; room := "Kitchen"; description := "Base unit 2 door";
              qty := 2; width_mm := 600; height_mm := 720; depth_mm := 560;
              area_m2 := 0.432 |} in
  let pov : gmap string ProductOverride :=
    {[ "A1"%string := {| exclude := true; complexity := None |} ]} in
  let rates := {| Install.defaults_install_hours := None;
                  Install.two_person_fraction := None;
                  Install.one_person_fraction := None;
                  Install.two_person_rate := None;
                  Install.one_person_rate := None;
                  Install.labor_installer_billed := None;
                  Install.base_minutes_per_m2 := None;
                  Install.min_minutes_per_product := None |} in
  let r := Install.estimate {| products := [p]; hardware := [] |} rates Install.no_rules pov in
  Install.hours r == 0 /\ Install.person_hours r == 0 /\ Install.cost r == 0.
Proof.
  intros p pov rates.
  assert (H : get_or (Install.defaults_install_hours rates) 0 0 <= 0)
    by (vm_compute; discriminate).
  apply (install_all_excluded {| products := [p]; hardware := [] |} rates
           Install.no_rules pov H).
  intros q [<- | []]. vm_compute. reflexivity.
Defined.

End InstallMore.

(** ** calculators/edgeband.py: which parts take edgebanding time *)

Module EdgebandMore.
Import Num NumFacts NumMore Text TextMore Edgeband.

Lemma blank_lstrip (s : string) : non_blank s = false -> lstrip s = EmptyString.
Proof.
  unfold lstrip. induction s as [| c t IH]; cbn [non_blank span]; [reflexivity |].
  intros H. apply orb_false_iff in H. destruct H as [Hc Ht].
  apply negb_false_iff in Hc. rewrite Hc.
  specialize (IH Ht). destruct (span is_space t) as [a b]. exact IH.
Qed.

Lemma non_blank_lstrip (s : string) :
  non_blank s = true ->
  exists c t, lstrip s = String c t /\ is_space c = false.
Proof.
  unfold lstrip. induction s as [| c t IH]; cbn [non_blank span]; [discriminate |].
  intros H. destruct (is_space c) eqn:Hc.
  - cbn [negb orb] in H. destruct (IH H) as (c' & t' & E & Hc').
    destruct (span is_space t) as [a b]. exists c', t'. split; assumption.
  - exists c, t. split; [reflexivity | exact Hc].
Qed.

(** The test on an edge flag, [str(val).strip() != ""], holds exactly of
    the texts with a character that is not white space. *)
Lemma non_blank_strip (s : string) : non_blank s = false <-> strip s = EmptyString.
Proof.
  split.
  - intros H. unfold strip. rewrite (blank_lstrip s H). reflexivity.
  - intros H. destruct (non_blank s) eqn:N; [| reflexivity].
    destruct (non_blank_lstrip s N) as (c & t & E & Hc).
    unfold strip in H. rewrite E in H. cbn [rstrip] in H. rewrite Hc in H.
    destruct (rstrip t); discriminate.
Qed.

Lemma edged_sides_nonneg (p : Part) : (0 <= edged_sides p)%Z.
Proof. unfold edged_sides. lia. Qed.

Lemma counted_qty_pos (p : Part) : (1 <= counted_qty p)%Z.
Proof.
  unfold counted_qty. destruct (0 <? qty p)%Z eqn:E; [| lia].
  apply Z.ltb_lt in E. lia.
Qed.

Lemma edges_never_negative (parts : list Part) : (0 <= counted_edges parts)%Z.
Proof.
  induction parts as [| p parts IH]; cbn [counted_edges fold_right]; [lia |].
  fold (counted_edges parts).
  pose proof (edged_sides_nonneg p). pose proof (counted_qty_pos p). nia.
Qed.

Lemma edged_sides_zero (p : Part) :
  edged_sides p = 0%Z
  <-> forall key val, In key flag_keys -> eb_flags p !! key = Some val ->
                      strip val = EmptyString.
Proof.
  unfold edged_sides. split.
  - intros H key val Hk Hv.
    assert (F : List.filter (flag_set (eb_flags p)) flag_keys = [])
      by (destruct (List.filter _ _); [reflexivity | simpl in H; lia]).
    apply non_blank_strip.
    destruct (non_blank val) eqn:N; [| reflexivity].
    assert (I : In key (List.filter (flag_set (eb_flags p)) flag_keys)).
    { apply List.filter_In. split; [exact Hk |]. unfold flag_set. rewrite Hv. exact N. }
    rewrite F in I. destruct I.
  - intros H.
    assert (F : List.filter (flag_set (eb_flags p)) flag_keys = []).
    { destruct (List.filter (flag_set (eb_flags p)) flag_keys) as [| k l] eqn:E;
        [reflexivity |].
      assert (I : In k (List.filter (flag_set (eb_flags p)) flag_keys))
        by (rewrite E; left; reflexivity).
      apply List.filter_In in I. destruct I as [Hk Hf]. unfold flag_set in Hf.
      destruct (eb_flags p !! k) as [val |] eqn:Hv; [| discriminate].
      pose proof (proj2 (non_blank_strip val) (H k val Hk Hv)) as B. congruence. }
    rewrite F. reflexivity.
Qed.

(** A part takes edgebanding time exactly when one of its four edge flags
    holds something other than white space: the edge count is never
    negative, it is zero exactly when every flag of every part is missing
    or blank, and then the time is zero whatever the minutes per edge; a
    part with a flagged edge counts at least once even when its quantity
    is zero or negative. *)
Theorem edges_counted_iff_flagged (parts : list Part) :
  let unflagged (p : Part) :=
    forall key val, In key flag_keys -> eb_flags p !! key = Some val ->
                    strip val = EmptyString in
  (0 <= count_edges parts)%Z
  /\ (count_edges parts = 0%Z <-> Forall unflagged parts)
  /\ (forall cfg, Forall unflagged parts -> time_from_parts parts cfg == 0)
  /\ (forall p, In p parts -> ~ unflagged p -> (1 <= count_edges parts)%Z).
Proof.
  intros unflagged.
  assert (E : count_edges parts = counted_edges parts)
    by (unfold count_edges; rewrite EdgebandFacts.count_edges_from; lia).
  assert (Z0 : counted_edges parts = 0%Z <-> Forall unflagged parts).
  { clear E. induction parts as [| p parts IH]; cbn [counted_edges fold_right].
    - split; [constructor | reflexivity].
    - fold (counted_edges parts).
      pose proof (edged_sides_nonneg p) as S. pose proof (counted_qty_pos p) as Q1.
      pose proof (edges_never_negative parts) as C.
      split.
      + intros H. constructor.
        * refine (proj1 (edged_sides_zero p) _). nia.
        * apply IH. nia.
      + intros H. inversion H as [| ? ? Hp Hl]; subst.
        pose proof (proj2 (edged_sides_zero p) Hp) as Hp'. apply IH in Hl.
        rewrite Hp', Hl. lia. }
  split; [rewrite E; apply edges_never_negative |].
  split; [rewrite E; exact Z0 |]. split.
  - intros cfg H. unfold time_from_parts. rewrite E. apply Z0 in H. rewrite H.
    apply round2_zero. unfold Qdiv. ring.
  - intros p Hin Hp. rewrite E.
    pose proof (edges_never_negative parts) as C.
    destruct (Z.eq_dec (counted_edges parts) 0%Z) as [Hz | Hn]; [| lia].
    apply Z0 in Hz. rewrite List.Forall_forall in Hz. exfalso. apply Hp, Hz, Hin.
Qed.

End EdgebandMore.

(** ** web/app.py: the merge law of [_deep_update] *)

Module OverrideMore.
Import Override.

(** What a merge does key by key: the merged document has the keys of
    both; a key the override lacks keeps what the base held; where both
    hold a dict the two are merged in turn; in every other case the
    override's value replaces the base's wholesale, lists included.
    Merging nothing changes nothing, and merging into nothing gives the
    override. *)
Theorem deep_update_merge_law (base override : gmap string value) :
  dom (deep_update base override) = dom base ∪ dom override
  /\ (forall k, override !! k = None -> deep_update base override !! k = base !! k)
  /\ (forall k src dst, override !! k = Some (VDict src) -> base !! k = Some (VDict dst) ->
        deep_update base override !! k = Some (VDict (deep_update dst src)))
  /\ (forall k v, override !! k = Some v ->
        (forall src, v <> VDict src) \/ (forall dst, base !! k <> Some (VDict dst)) ->
        deep_update base override !! k = Some v)
  /\ deep_update base ∅ = base
  /\ deep_update ∅ override = override.
Proof.
  split; [| split; [| split; [| split; [| split]]]].
  - apply set_eq. intros k. rewrite elem_of_union, !elem_of_dom.
    rewrite OverrideFacts.deep_update_lookup.
    destruct (override !! k) as [v |] eqn:E.
    + split; [intros _; right; eauto | intros _; eauto].
    + split; [intros H; left; exact H | intros [H | [x H]]; [exact H | discriminate]].
  - intros k H. rewrite OverrideFacts.deep_update_lookup, H. reflexivity.
  - intros k src dst Ho Hb. rewrite OverrideFacts.deep_update_lookup, Ho, Hb. reflexivity.
  - intros k v Ho H. rewrite OverrideFacts.deep_update_lookup, Ho. f_equal.
    destruct H as [H | H].
    + destruct v as [s | l | src]; try reflexivity. exfalso. apply (H src). reflexivity.
    + apply OverrideFacts.updated_not_dict. exact H.
  - reflexivity.
  - apply map_eq. intros k. rewrite OverrideFacts.deep_update_lookup, lookup_empty.
    destruct (override !! k) as [v |]; [| reflexivity].
    f_equal. apply OverrideFacts.updated_not_dict. intros dst. discriminate.
Qed.

End OverrideMore.

(** ** web/app.py: project slugs *)

Module SlugFacts.
Import Text TextMore Slug.

Lemma slug_char_plain (c : ascii) :
  slug_char c = true ->
  is_space c = false /\ lower_ascii c = c /\ Ascii.eqb c " " = false /\ keep c = true.
Proof.
  destruct c as [[] [] [] [] [] [] [] []]; vm_compute; intros H;
    try discriminate H; repeat split; reflexivity.
Qed.

Lemma kept_is_slug_char (c : ascii) :
  let c' := if Ascii.eqb (lower_ascii c) " " then "-"%char else lower_ascii c in
  keep c' = true -> slug_char c' = true.
Proof.
  destruct c as [[] [] [] [] [] [] [] []]; vm_compute; intros H;
    try discriminate H; reflexivity.
Qed.

Lemma filtered_all (s : string) :
  all_chars slug_char (filter_chars keep (replace_space (lower s))) = true.
Proof.
  induction s as [| c t IH]; cbn [lower replace_space filter_chars]; [reflexivity |].
  destruct (keep (if Ascii.eqb (lower_ascii c) " " then "-"%char else lower_ascii c)) eqn:K;
    [| exact IH].
  cbn [all_chars]. rewrite (kept_is_slug_char c K), IH. reflexivity.
Qed.

Lemma take_all (p : ascii -> bool) (n : nat) (s : string) :
  all_chars p s = true -> all_chars p (take n s) = true.
Proof.
  revert s. induction n as [| n IH]; intros [| c t]; cbn [take all_chars]; try reflexivity.
  intros H. apply andb_true_iff in H. destruct H as [Hc Ht].
  rewrite Hc, (IH t Ht). reflexivity.
Qed.

Lemma take_length (n : nat) (s : string) : (String.length (take n s) <= n)%nat.
Proof.
  revert s. induction n as [| n IH]; intros [| c t]; cbn [take String.length]; try lia.
  specialize (IH t). lia.
Qed.

Lemma take_all_of (n : nat) (s : string) : (String.length s <= n)%nat -> take n s = s.
Proof.
  revert s. induction n as [| n IH]; intros [| c t]; cbn [take String.length];
    try reflexivity; try lia.
  intros H. rewrite IH by lia. reflexivity.
Qed.

Lemma slug_rstrip (s : string) : all_chars slug_char s = true -> rstrip s = s.
Proof.
  induction s as [| c t IH]; cbn [all_chars rstrip]; [reflexivity |].
  intros H. apply andb_true_iff in H. destruct H as [Hc Ht].
  rewrite (IH Ht). destruct (slug_char_plain c Hc) as (Hs & _).
  rewrite Hs. destruct t; reflexivity.
Qed.

Lemma slug_strip (s : string) : all_chars slug_char s = true -> strip s = s.
Proof.
  intros H. unfold strip, lstrip.
  assert (L : snd (span is_space s) = s).
  { destruct s as [| c t]; [reflexivity |]. cbn [all_chars] in H.
    apply andb_true_iff in H. destruct H as [Hc _].
    destruct (slug_char_plain c Hc) as (Hs & _). cbn [span]. rewrite Hs. reflexivity. }
  rewrite L. apply slug_rstrip. exact H.
Qed.

Lemma slug_unchanged (s : string) :
  all_chars slug_char s = true ->
  lower s = s /\ replace_space s = s /\ filter_chars keep s = s.
Proof.
  induction s as [| c t IH]; cbn [all_chars lower replace_space filter_chars];
    [repeat split; reflexivity |].
  intros H. apply andb_true_iff in H. destruct H as [Hc Ht].
  destruct (IH Ht) as (A & B & C). destruct (slug_char_plain c Hc) as (_ & L & E & K).
  rewrite L, E, K, A, B, C. repeat split; reflexivity.
Qed.

(** A slug is fit to name a project directory: it is never empty, has
    at most 60 characters, and is made of lower-case letters, digits,
    hyphens and underscores only, so it holds no slash, no dot and no
    blank; and the slug of a slug is the slug itself. *)
Theorem slug_is_safe (name : string) :
  let r := slugify name in
  r <> EmptyString
  /\ (String.length r <= 60)%nat
  /\ all_chars slug_char r = true
  /\ (forall c, In c (list_ascii_of_string r) ->
        c <> "/"%char /\ c <> "."%char /\ c <> "\"%char /\ c <> " "%char)
  /\ slugify r = r.
Proof.
  intros r.
  assert (A : all_chars slug_char r = true).
  { unfold r, slugify.
    pose proof (take_all slug_char 60 _ (filtered_all (strip name))) as T.
    destruct (take 60 _); [reflexivity | exact T]. }
  assert (N : r <> EmptyString).
  { unfold r, slugify. destruct (take 60 _); discriminate. }
  assert (L : (String.length r <= 60)%nat).
  { unfold r, slugify.
    pose proof (take_length 60 (filter_chars keep (replace_space (lower (strip name))))) as T.
    destruct (take 60 _); [cbn; lia | exact T]. }
  split; [exact N |]. split; [exact L |]. split; [exact A |]. split.
  - clear N L. induction r as [| c t IH]; cbn [list_ascii_of_string]; [intros c [] |].
    cbn [all_chars] in A. apply andb_true_iff in A. destruct A as [Hc Ht].
    intros x [<- | Hx]; [| exact (IH Ht x Hx)].
    repeat split; intros ->; discriminate Hc.
  - unfold slugify at 1. rewrite (slug_strip r A).
    destruct (slug_unchanged r A) as (E1 & E2 & E3). rewrite E1, E2, E3.
    rewrite (take_all_of 60 r L). destruct r; [contradiction | reflexivity].
Qed.

End SlugFacts.

(** ** normalize/materials.py: thickness and price lookup *)

Module MaterialPricingFacts.
Import Num NumFacts Text MaterialPricing.

Lemma min_from_least (key : Q -> Q) (l : list Q) (best : Q) :
  let m := min_from key best l in
  In m (best :: l) /\ (forall x, In x (best :: l) -> key m <= key x).
Proof.
  revert best. induction l as [| t l IH]; intros best; cbn [min_from].
  - split; [left; reflexivity |]. intros x [<- | []]. lra.
  - destruct (Qlt_le_dec (key t) (key best)) as [Lt | Ge].
    + destruct (IH t) as [I M]. split.
      * destruct I as [E | I]; [right; left; exact E | right; right; exact I].
      * intros x [<- | [<- | Hx]].
        -- pose proof (M t (or_introl eq_refl)). lra.
        -- apply M. left. reflexivity.
        -- apply M. right. exact Hx.
    + destruct (IH best) as [I M]. split.
      * destruct I as [E | I]; [left; exact E | right; right; exact I].
      * intros x [<- | [<- | Hx]].
        -- apply M. left. reflexivity.
        -- pose proof (M best (or_introl eq_refl)). lra.
        -- apply M. right. exact Hx.
Qed.

(** On a list in increasing order, a tie goes to the smaller value. *)
Lemma min_from_first (key : Q -> Q) (l : list Q) (best : Q) :
  StronglySorted Qle (best :: l) ->
  forall x, In x (best :: l) -> key x <= key (min_from key best l) ->
            min_from key best l <= x.
Proof.
  revert best. induction l as [| t l IH]; intros best S; cbn [min_from].
  - intros x [<- | []] _. lra.
  - inversion S as [| ? ? S' F]; subst.
    inversion S' as [| ? ? S'' F']; subst.
    inversion F as [| ? ? Hbt Fl]; subst.
    destruct (Qlt_le_dec (key t) (key best)) as [Lt | Ge].
    + intros x [<- | Hx] Hk.
      * destruct (min_from_least key l t) as [_ M].
        pose proof (M t (or_introl eq_refl)). cbv zeta in H. lra.
      * apply (IH t S' x Hx Hk).
    + assert (Sb : StronglySorted Qle (best :: l)) by (constructor; assumption).
      intros x [<- | [<- | Hx]] Hk.
      * apply (IH best Sb best (or_introl eq_refl) Hk).
      * assert (Kb : key best <= key (min_from key best l)) by lra.
        pose proof (IH best Sb best (or_introl eq_refl) Kb). lra.
      * apply (IH best Sb x (or_intror Hx) Hk).
Qed.

Lemma typical_sorted : StronglySorted Qle TYPICAL_THICKNESSES.
Proof.
  unfold TYPICAL_THICKNESSES.
  repeat (constructor; [| repeat (constructor; [vm_compute; discriminate |]); constructor]).
  constructor.
Qed.

(** A thickness read from a material name snaps to the nearest standard
    thickness, the thinner of two equally near ones; a standard thickness
    is kept; and a thickness that is not positive gives 0. *)
Theorem closest_thickness_nearest (value : Q) :
  let r := closest_thickness value in
  (value <= 0 -> r = 0)
  /\ (0 < value ->
      In r TYPICAL_THICKNESSES
      /\ forall t, In t TYPICAL_THICKNESSES ->
           Qabs (r - value) <= Qabs (t - value)
           /\ (Qabs (t - value) <= Qabs (r - value) -> r <= t))
  /\ (In value TYPICAL_THICKNESSES -> r = value).
Proof.
  intros r. split; [| split].
  - intros H. unfold r, closest_thickness.
    apply Qle_bool_iff in H. rewrite H. reflexivity.
  - intros H. unfold r, closest_thickness.
    destruct (Qle_bool value 0) eqn:E; [apply Qle_bool_iff in E; lra |].
    unfold TYPICAL_THICKNESSES at 1. cbn [min_by default].
    set (key := fun t => Qabs (t - value)).
    destruct (min_from_least key [12; 16; 18; 25; 32; 33] 0.7) as [I M].
    split; [exact I |]. intros t Ht. split.
    + exact (M t Ht).
    + intros K. exact (min_from_first key _ _ typical_sorted t Ht K).
  - intros H. unfold r. unfold TYPICAL_THICKNESSES in H.
    repeat (destruct H as [<- | H]; [vm_compute; reflexivity |]). destruct H.
Qed.

Lemma exact_is_relaxed (attrs : Attrs) (e : Entry) :
  matches_exact attrs e = true -> matches_relaxed attrs e = true.
Proof.
  unfold matches_exact, matches_relaxed. cbv zeta. intros H.
  apply andb_true_iff in H. destruct H as [H T].
  apply andb_true_iff in H. destruct H as [H _].
  rewrite H, T. reflexivity.
Qed.

(** The price by attributes is that of the first entry agreeing on
    supplier, finish, substrate and thickness, wherever it stands in the
    catalog; failing that, that of the first entry agreeing on supplier,
    finish and thickness; and there is no price exactly when the catalog is
    missing or no entry agrees on these three.  Supplier and substrate are
    compared in upper case, the finish in lower case. *)
Theorem price_from_attributes_first_match (attrs : Attrs) (pricing : option (list Entry)) :
  (forall entries before e after,
      pricing = Some entries -> entries = before ++ e :: after ->
      Forall (fun x => matches_exact attrs x = false) before ->
      matches_exact attrs e = true ->
      price_from_attributes attrs pricing = Some (get (e_price_per_m2_aud_ex_gst e) 0))
  /\ (forall entries before e after,
      pricing = Some entries -> entries = before ++ e :: after ->
      Forall (fun x => matches_exact attrs x = false) entries ->
      Forall (fun x => matches_relaxed attrs x = false) before ->
      matches_relaxed attrs e = true ->
      price_from_attributes attrs pricing = Some (get (e_price_per_m2_aud_ex_gst e) 0))
  /\ (price_from_attributes attrs pricing = None
      <-> pricing = None
          \/ exists entries, pricing = Some entries
                             /\ Forall (fun x => matches_relaxed attrs x = false) entries).
Proof.
  assert (F : forall (p : Entry -> bool) before e after,
             Forall (fun x => p x = false) before -> p e = true ->
             List.find p (before ++ e :: after) = Some e).
  { intros p before e after H He. induction H as [| x l Hx _ IH]; cbn [app List.find].
    - rewrite He. reflexivity.
    - rewrite Hx. exact IH. }
  assert (G : forall (p : Entry -> bool) l,
             Forall (fun x => p x = false) l <-> List.find p l = None).
  { intros p l. induction l as [| x l IH]; cbn [List.find].
    - split; [reflexivity | constructor].
    - destruct (p x) eqn:E.
      + split; [| discriminate]. intros H. inversion H; subst. congruence.
      + rewrite <- IH. split.
        * intros H. inversion H; subst. assumption.
        * intros H. constructor; assumption. }
  split; [| split].
  - intros entries before e after -> -> Hb He. unfold price_from_attributes.
    rewrite (F _ before e after Hb He). reflexivity.
  - intros entries before e after -> -> Hn Hb He. unfold price_from_attributes.
    rewrite (proj1 (G _ _) Hn), (F _ before e after Hb He). reflexivity.
  - unfold price_from_attributes. destruct pricing as [entries |].
    + destruct (List.find (matches_exact attrs) entries) as [e |] eqn:X.
      * split; [discriminate |]. intros [H | (l & H & Hl)]; [discriminate |].
        injection H as <-. apply List.find_some in X. destruct X as [Hin Hx].
        rewrite List.Forall_forall in Hl. pose proof (Hl e Hin) as R.
        rewrite (exact_is_relaxed attrs e Hx) in R. discriminate.
      * destruct (List.find (matches_relaxed attrs) entries) as [e |] eqn:R.
        -- split; [discriminate |]. intros [H | (l & H & Hl)]; [discriminate |].
           injection H as <-. apply G in Hl. congruence.
        -- split; [| reflexivity]. intros _. right. exists entries.
           split; [reflexivity |]. apply G. exact R.
    + split; [intros _; left; reflexivity | reflexivity].
Qed.

End MaterialPricingFacts.

(** ** calculators/materials.py: the two totals *)

Module MaterialsFacts.
Import Num NumFacts NumMore Text TextMore MaterialPricing Materials.

Section Parsers.
Variable parse_sheet_size : string -> Q * Q.
Variable parse_material_name : string -> Attrs.





End Parsers.


End MaterialsFacts.
